(** * partner_multi_relation_tabs: relation tabs on the partner form

    A shallow embedding of [models/res_partner.py].  The module extends the
    [res.partner] model with two fields per configured tab and injects one
    page per tab into the partner form.

    Conventions of the embedding:
    - the class level attributes the module reads and writes ([_fields],
      [_field_computed], [_tab_modification_sequence]) form the process wide
      [State];
    - a method is a computation in the monad [M]: it threads the [State] and
      either returns a value or raises; what was mutated before an exception
      stays mutated, as in Python;
    - the collaborators that live outside this file (the tab library, the
      sequence model, the tab model, the framework's view machinery) are the
      variables of [Section ResPartner];
    - an lxml element is a rose tree; a node handle is the path from the root
      to the node. *)

From Stdlib Require Import ZArith String List.
From stdpp Require Import gmap strings list fin_maps pretty.

Local Open Scope Z_scope.
Local Open Scope string_scope.
Local Open Scope list_scope.

(** ** Field descriptors *)

(** A leaf of an Odoo search domain, e.g. [("tab_id", "=", 7)]. *)
Definition DomainLeaf : Type := string * string * Z.

(** The keyword arguments the module passes to [fields.Boolean] and
    [fields.One2many].  A keyword that is not passed is [None]. *)
Inductive Field :=
| Boolean (compute : option string) (inverse : option string)
| One2many (comodel_name inverse_name : string)
           (domain : list DomainLeaf)
           (context : list (string * bool))
           (string_ : string).

(** Python field objects are compared and hashed by identity: [fid] is the
    identity of the object, [fdesc] what it was built from. *)
Record FieldObj := mkFieldObj { fid : nat; fdesc : Field }.

(** Odoo's rule for computed fields: a field with a [compute] method and no
    [inverse] method is read-only. *)
Definition is_computed (f : Field) : bool :=
  match f with
  | Boolean (Some _) _ => true
  | _ => false
  end.

Definition readonly (f : Field) : bool :=
  match f with
  | Boolean (Some _) None => true
  | _ => false
  end.

(** The [@api.depends] decorations of the class, by method name. *)
Definition api_depends (method : string) : list string :=
  if String.eqb method "_compute_tabs_visibility"
  then ["is_company"; "category_id"]
  else [].

(** The attributes whose change triggers the recomputation of a field. *)
Definition depends_of (f : Field) : list string :=
  match f with
  | Boolean (Some m) _ => api_depends m
  | _ => []
  end.

(** ** Tabs *)

(** A tab object of the tab library; [tab.tab_record.id] and
    [tab.tab_record.name] are what this file reads of it. *)
Record Tab := mkTab { tab_record_id : Z; tab_record_name : string }.

Global Instance Tab_eq_dec : EqDecision Tab.
Proof. solve_decision. Defined.

(** ** Process state *)

Record State := mkState {
  _fields : gmap string FieldObj;
  _field_computed : gmap nat (list nat);
  _tab_modification_sequence : Z;
  next_fid : nat
}.

(** The class as it is when the process starts: the class attribute
    [_tab_modification_sequence = 0], none of the tab fields attached. *)
Definition initial_state (base_fields : gmap string FieldObj)
    (base_computed : gmap nat (list nat)) (n : nat) : State :=
  mkState base_fields base_computed 0 n.

Definition set_fields (m : gmap string FieldObj) (s : State) : State :=
  mkState m (_field_computed s) (_tab_modification_sequence s) (next_fid s).

Definition set_field_computed (m : gmap nat (list nat)) (s : State) : State :=
  mkState (_fields s) m (_tab_modification_sequence s) (next_fid s).

Definition set_sequence (z : Z) (s : State) : State :=
  mkState (_fields s) (_field_computed s) z (next_fid s).

Definition set_next_fid (n : nat) (s : State) : State :=
  mkState (_fields s) (_field_computed s) (_tab_modification_sequence s) n.

(** ** Exceptions and the method monad *)

Inductive Exn :=
| SourceUnavailable
| KeyError (key : string)
| TypeError.

Inductive Res (A : Type) :=
| Ok (a : A)
| Raise (e : Exn).
Arguments Ok {A} a.
Arguments Raise {A} e.

Definition M (A : Type) : Type := State -> Res A * State.

Definition ret {A} (a : A) : M A := fun s => (Ok a, s).

Definition raise {A} (e : Exn) : M A := fun s => (Raise e, s).

Definition bind {A B} (m : M A) (k : A -> M B) : M B :=
  fun s =>
    match m s with
    | (Ok a, s') => k a s'
    | (Raise e, s') => (Raise e, s')
    end.

Definition lift {A} (r : Res A) : M A := fun s => (r, s).

Definition get_state : M State := fun s => (Ok s, s).

Definition modify (f : State -> State) : M unit := fun s => (Ok tt, f s).

Notation "'let*' x ':=' m 'in' k" := (bind m (fun x => k))
  (at level 10, x name, m at level 100, k at level 200, only parsing).
Notation "'let*' ' pat ':=' m 'in' k" :=
  (bind m (fun x => match x with pat => k end))
  (at level 10, pat pattern, m at level 100, k at level 200, only parsing).

(** A [for] loop that rebinds local variables: [acc] holds them. *)
Fixpoint for_each {A B} (l : list A) (body : B -> A -> M B) (acc : B) : M B :=
  match l with
  | [] => ret acc
  | x :: l' => let* acc' := body acc x in for_each l' body acc'
  end.

(** ** Layout documents *)

(** An lxml element: tag, attributes, children.  Text and tails play no role
    in this module. *)
Unset Elimination Schemes.
Inductive Element :=
| Elem (tag : string) (attrib : list (string * string))
       (children : list Element).
Set Elimination Schemes.

Definition tag (e : Element) : string :=
  match e with Elem t _ _ => t end.

Definition attrib (e : Element) : list (string * string) :=
  match e with Elem _ a _ => a end.

Definition children (e : Element) : list Element :=
  match e with Elem _ _ cs => cs end.

Section Element_induction.

Variable P : Element -> Prop.
Hypothesis P_Elem : forall t a cs, Forall P cs -> P (Elem t a cs).

Fixpoint Element_ind (e : Element) : P e :=
  match e with
  | Elem t a cs =>
      P_Elem t a cs
        ((fix all (l : list Element) : Forall P l :=
            match l with
            | [] => List.Forall_nil P
            | c :: l' => List.Forall_cons P c l' (Element_ind c) (all l')
            end) cs)
  end.

End Element_induction.

(** A node handle: the child indices from the root down to the node. *)
Definition Path : Type := list nat.

Fixpoint subtree (p : Path) (e : Element) : option Element :=
  match p with
  | [] => Some e
  | i :: p' =>
      match children e !! i with
      | Some c => subtree p' c
      | None => None
      end
  end.

Definition attr_get (k : string) (a : list (string * string)) : option string :=
  snd <$> List.find (fun kv => String.eqb (fst kv) k) a.

Definition is_page (e : Element) : bool := String.eqb (tag e) "page".

(** The step [page[last()]] below one parent, whose children from index [i]
    on are [l]: the last of the parent's [page] children, and what the step
    selects further down, in document order.  [rec] gives the selection
    below a child. *)
Definition children_last_pages (rec : Element -> list Path)
  : nat -> list Element -> list Path :=
  fix go (i : nat) (l : list Element) {struct l} : list Path :=
    match l with
    | [] => []
    | c :: l' =>
        (if is_page c && negb (existsb is_page l') then [[i]] else [])
        ++ map (cons i) (rec c) ++ go (S i) l'
    end.

Fixpoint descendant_last_pages (e : Element) : list Path :=
  match e with
  | Elem _ _ cs => children_last_pages descendant_last_pages 0%nat cs
  end.

(** [view.xpath("//page[last()]")]: every [page] element that is the last
    [page] child of its parent, in document order.  The root element is the
    only child of the document node. *)
Definition xpath_page_last (view : Element) : list Path :=
  (if is_page view then [[]] else []) ++ descendant_last_pages view.

(** [view.xpath('//field[@name="id"]')], as a truth value. *)
Fixpoint xpath_field_id (e : Element) : bool :=
  match e with
  | Elem t a cs =>
      (String.eqb t "field" && bool_decide (attr_get "name" a = Some "id"))
      || existsb xpath_field_id cs
  end.

(** [parent.append(child)]. *)
Definition append (parent child : Element) : Element :=
  match parent with
  | Elem t a cs => Elem t a (cs ++ [child])
  end.

(** [node.addnext(new)] for the node at [p]: [new] becomes the sibling right
    after it.  The root has no parent: lxml raises [TypeError], here [None]. *)
Fixpoint addnext (p : Path) (new : Element) (e : Element) : option Element :=
  match p, e with
  | [], _ => None
  | [i], Elem t a cs =>
      if bool_decide (i < length cs)%nat
      then Some (Elem t a (take (S i) cs ++ new :: drop (S i) cs))
      else None
  | i :: p', Elem t a cs =>
      match cs !! i with
      | Some c =>
          match addnext p' new c with
          | Some c' => Some (Elem t a (<[i := c']> cs))
          | None => None
          end
      | None => None
      end
  end.

(** The handle of the sibling right after the node at [p]. *)
Fixpoint next_sibling (p : Path) : Path :=
  match p with
  | [] => []
  | [i] => [S i]
  | i :: p' => i :: next_sibling p'
  end.

(** The [page] elements of a document, in document order. *)
Fixpoint doc_pages (e : Element) : list Element :=
  match e with
  | Elem t a cs =>
      (if String.eqb t "page" then [e] else []) ++ flat_map doc_pages cs
  end.

(** [p] is the handle of a node of [e] other than the root. *)
Definition valid_anchor (p : Path) (e : Element) : Prop :=
  p <> [] /\ is_Some (subtree p e).

(** The node at [p] is below the root, no element enclosing it is a page,
    and no page comes after it in document order. *)
Fixpoint tail_anchor (p : Path) (e : Element) : Prop :=
  match p with
  | [] => False
  | i :: p' =>
      is_page e = false
      /\ flat_map doc_pages (drop (S i) (children e)) = []
      /\ match children e !! i with
         | None => False
         | Some c =>
             match p' with
             | [] => True
             | _ :: _ => tail_anchor p' c
             end
         end
  end.

(** The attributes of the pages of a document, in document order: they
    tell the pages apart whatever is inserted below them. *)
Definition page_attribs (e : Element) : list (list (string * string)) :=
  map attrib (doc_pages e).

(** How many pages come, in document order, up to the end of the node at
    [p]: the pages before it and the pages at and below it. *)
Fixpoint pages_upto (p : Path) (e : Element) : nat :=
  match p with
  | [] => length (doc_pages e)
  | i :: p' =>
      (if is_page e then 1 else 0)
      + length (flat_map doc_pages (take i (children e)))
      + match children e !! i with
        | Some c => pages_upto p' c
        | None => 0
        end
  end%nat.

(** ** Collaborators outside this file *)

(** A value stored in [self.env.context], with Python's truth value. *)
Inductive Value :=
| VNone
| VBool (b : bool)
| VInt (z : Z)
| VStr (s : string)
| VIds (l : list Z).

Definition truthy (v : Value) : bool :=
  match v with
  | VNone => false
  | VBool b => b
  | VInt z => negb (Z.eqb z 0)
  | VStr s => negb (String.eqb s "")
  | VIds l => match l with [] => false | _ => true end
  end.

(** [self.env]: the context, the sequence model
    ([res.partner.tab.sequence]) and the tab model ([res.partner.tab]).  A
    call to a model returns or raises. *)
Record Env := mkEnv {
  context : gmap string Value;
  get_sequence : Res Z;
  get_tabs : Res (list Tab)
}.

(** [context.get(key)] *)
Definition context_get (env : Env) (key : string) : Value :=
  default VNone (context env !! key).

(** A partner record as far as the visibility computation goes: the two
    attributes it depends on and the values assigned to the record. *)
Record Partner := mkPartner {
  is_company : bool;
  category_id : list Z;
  values : gmap string bool
}.

(** [this[fieldname] = value] *)
Definition setitem (this : Partner) (fieldname : string) (value : bool)
  : Partner :=
  mkPartner (is_company this) (category_id this)
            (<[fieldname := value]> (values this)).

(** What [fields_view_get] returns: [result["arch"]], [result["fields"]],
    [result["view_id"]].  The architecture is kept parsed. *)
Record ViewResult (Meta : Type) := mkViewResult {
  arch : Element;
  fields : gmap string Meta;
  view_id : Z
}.
Arguments mkViewResult {Meta} _ _ _.
Arguments arch {Meta} _.
Arguments fields {Meta} _.
Arguments view_id {Meta} _.

(** ** A concrete installation

    The data the examples at the end of the file run on. *)
Module Sample.

(** Modelled from the spec: the tab library, which this file calls and
    does not define.  The two field names are derived from the id of the
    tab record alone; the page is labelled with the name of the tab, holds
    the relation field and is hidden through the visible field. *)
Definition get_fieldname (tab : Tab) : string :=
  "relation_ids_tab_" +:+ pretty (tab_record_id tab).

Definition get_visible_fieldname (tab : Tab) : string :=
  get_fieldname tab +:+ "_visible".

Definition create_page (tab : Tab) : Element :=
  Elem "page"
       [("string", tab_record_name tab);
        ("attrs",
         "{'invisible': [('" +:+ get_visible_fieldname tab
         +:+ "', '=', False)]}")]
       [Elem "field" [("name", get_fieldname tab)] []].

(** A framework that materializes the ids it is given, serves one form per
    call and describes every [field] element of an architecture by the name
    of the model. *)
Definition super_browse (arg prefetch : option (list Z)) : M (list Z) :=
  ret (default [] arg).

Fixpoint field_names (e : Element) : list string :=
  match e with
  | Elem t a cs =>
      (if String.eqb t "field"
       then match attr_get "name" a with Some n => [n] | None => [] end
       else [])
      ++ flat_map field_names cs
  end.

Definition postprocess_and_fields (model : string) (view : Element)
    (view_id_ : Z) : M (Element * gmap string string) :=
  ret (view, list_to_map (map (fun n => (n, model)) (field_names view))).

Definition partner_form : Element :=
  Elem "form" []
    [Elem "sheet" []
       [Elem "field" [("name", "name")] [];
        Elem "notebook" []
          [Elem "page" [("string", "Contacts")] [];
           Elem "page" [("string", "Sales")] []]]].


Definition plain_form : Element :=
  Elem "form" [] [Elem "group" [] [Elem "field" [("name", "name")] []]].

Definition super_fields_view_get (form : Element) (view_id_ : option Z)
    (view_type : string) (toolbar submenu : bool)
  : M (ViewResult string) :=
  ret (mkViewResult form {["name" := "res.partner"]} (default 7 view_id_)).

Definition tabs : list Tab := [mkTab 1 "A"; mkTab 2 "B"; mkTab 3 "C"].

Definition env_live : Env := mkEnv ∅ (Ok 5) (Ok tabs).

Definition env_more_tabs : Env := mkEnv ∅ (Ok 5) (Ok (tabs ++ [mkTab 4 "D"])).


Definition env_tabs_down : Env := mkEnv ∅ (Ok 5) (Raise SourceUnavailable).

Definition env_sequence_down : Env :=
  mkEnv ∅ (Raise SourceUnavailable) (Ok tabs).

Definition env_zero : Env := mkEnv ∅ (Ok 0) (Ok tabs).

Definition env_validation : Env :=
  mkEnv {["check_view_ids" := VIds [7]]} (Ok 5) (Ok tabs).

Definition env_next_revision : Env :=
  mkEnv ∅ (Ok 6) (Ok (tabs ++ [mkTab 4 "D"])).

Definition env_renamed (name : string) : Env :=
  mkEnv ∅ (Ok 1) (Ok [mkTab 1 name]).

Definition fresh : State := initial_state ∅ ∅ 0.

(** A view whose root is a page. *)
Definition page_root_view : Element :=
  Elem "page" [("string", "Only")] [Elem "field" [("name", "name")] []].

(** A form with an [id] field and a page inside a page. *)
Definition nested_form : Element :=
  Elem "form" []
    [Elem "field" [("name", "id")] [];
     Elem "notebook" []
       [Elem "page" [("string", "Outer")]
          [Elem "notebook" []
             [Elem "page" [("string", "Inner")] []]];
        Elem "page" [("string", "Last")] []]].


(** A postprocessing that describes no field. *)
Definition postprocess_without_metadata (model : string) (view : Element)
    (view_id_ : Z) : M (Element * gmap string string) :=
  ret (view, ∅).

(** Modelled from the spec: the visibility rule of the tab library, which
    this file calls and does not define.  Tab 1 is restricted to companies,
    tab 2 to partners of category 9; the other tabs show for everyone. *)
Definition compute_visibility (tab : Tab) (this : Partner) : bool :=
  if Z.eqb (tab_record_id tab) 1 then is_company this
  else if Z.eqb (tab_record_id tab) 2
       then existsb (Z.eqb 9) (category_id this)
       else true.

Definition partners : list Partner :=
  [mkPartner true [] ∅; mkPartner false [9] {["color" := true]}].

End Sample.

Section ResPartner.

(** The tab library. *)
Variable get_fieldname : Tab -> string.
Variable get_visible_fieldname : Tab -> string.
Variable create_page : Tab -> Element.
Variable compute_visibility : Tab -> Partner -> bool.

(** The framework: the inherited [browse] and [fields_view_get], and
    [ir.ui.view]'s [postprocess_and_fields]. *)
Variables Arg Recordset Meta : Type.
Variable super_browse : option Arg -> option Arg -> M Recordset.
Variable super_fields_view_get :
  option Z -> string -> bool -> bool -> M (ViewResult Meta).
Variable postprocess_and_fields :
  string -> Element -> Z -> M (Element * gmap string Meta).

Definition _name : string := "res.partner".

(** *** Schema *)

(** [fields.X(...)]: a new field object. *)
Definition new_field (d : Field) : M FieldObj :=
  fun s => (Ok (mkFieldObj (next_fid s) d), set_next_fid (S (next_fid s)) s).

(** [self._add_field(name, field)] of the framework: [cls._fields[name] =
    field], replacing what was there. *)
Definition _add_field (name : string) (field : FieldObj) : M unit :=
  modify (fun s => set_fields (<[name := field]> (_fields s)) s).

Definition visible_field_desc : Field :=
  Boolean (Some "_compute_tabs_visibility") None.

Definition tab_field_desc (tab : Tab) : Field :=
  One2many "res.partner.relation.all" "this_partner_id"
           [("tab_id", "=", tab_record_id tab)]
           [("active_test", false)]
           (tab_record_name tab).

Definition add_field (tab : Tab) : M unit :=
  let* visible_field := new_field visible_field_desc in
  let* _ := _add_field (get_visible_fieldname tab) visible_field in
  let* s := get_state in
  let* _ :=
    match _field_computed s !! fid visible_field with
    | None =>
        modify (fun s => set_field_computed
                  (<[fid visible_field := [fid visible_field]]>
                     (_field_computed s)) s)
    | Some _ => ret tt
    end in
  let* tab_field := new_field (tab_field_desc tab) in
  _add_field (get_fieldname tab) tab_field.

(** *** Revision cache and synchronizer *)

Definition _get_tabs (env : Env) : M (list Tab) := lift (get_tabs env).

(** The classmethod. *)
Definition _set_tab_modification_sequence (tab_modification_sequence : Z)
  : M unit :=
  modify (set_sequence tab_modification_sequence).

Definition _need_tab_update (env : Env) : M bool :=
  let* tab_modification_sequence := lift (get_sequence env) in
  let* s := get_state in
  if bool_decide (tab_modification_sequence = _tab_modification_sequence s)
  then ret false
  else
    let* _ := _set_tab_modification_sequence tab_modification_sequence in
    ret true.

(** One turn of the loop of [_update_tab_fields]; the loop rebinds no local
    variable. *)
Definition attach_missing (_ : unit) (tab : Tab) : M unit :=
  let fieldname := get_fieldname tab in
  let* s := get_state in
  match _fields s !! fieldname with
  | None => add_field tab
  | Some _ => ret tt
  end.

Definition _update_tab_fields (env : Env) : M unit :=
  let* need := _need_tab_update env in
  if negb need then ret tt
  else
    let* tabs := _get_tabs env in
    for_each tabs attach_missing tt.


(** *** View composer *)

Definition field_element (fieldname : string) : Element :=
  Elem "field" [("name", fieldname); ("invisible", "True")] [].

Definition add_invisible_extra_field (view : Element)
    (extra_fields : list string) (fieldname : string)
  : Element * list string :=
  (append view (field_element fieldname), extra_fields ++ [fieldname]).

(** The two names a tab adds to [extra_fields], in the order of the loop. *)
Definition tab_fieldnames (tab : Tab) : list string :=
  [get_visible_fieldname tab; get_fieldname tab].

(** What [_add_tab_pages] returns as [extra_fields] on a view and the tabs
    of the tab model, written without the loop. *)
Definition composed_extra_fields (view : Element) (tabs : list Tab)
  : list string :=
  match xpath_page_last view with
  | [] => []
  | _ :: _ =>
      (if xpath_field_id view then [] else ["id"])
      ++ flat_map tab_fieldnames tabs
  end.

(** One turn of the loop over the tabs; the local variables [view],
    [extra_fields] and [last_page] are the accumulator. *)
Definition add_tab_page (acc : Element * list string * Path) (tab : Tab)
  : M (Element * list string * Path) :=
  let '(view, extra_fields, last_page) := acc in
  let* _ := add_field tab in
  let '(view, extra_fields) :=
    add_invisible_extra_field view extra_fields (get_visible_fieldname tab) in
  let extra_fields := extra_fields ++ [get_fieldname tab] in
  let tab_page := create_page tab in
  match addnext last_page tab_page view with
  | None => raise TypeError
  | Some view => ret (view, extra_fields, next_sibling last_page)
  end.

(** The Python method mutates [view] in place and returns [extra_fields];
    here it returns both. *)
Definition _add_tab_pages (env : Env) (view : Element)
  : M (list string * Element) :=
  let last_page_nodes := xpath_page_last view in
  match last_page_nodes with
  | [] => ret ([], view)
  | last_page :: _ =>
      let '(view, extra_fields) :=
        if xpath_field_id view then (view, [])
        else add_invisible_extra_field view [] "id" in
      let* tabs := _get_tabs env in
      let* '(view, extra_fields, _) :=
        for_each tabs add_tab_page (view, extra_fields, last_page) in
      ret (extra_fields, view)
  end.

(** *** Entry points *)

Definition browse (env : Env) (arg prefetch : option Arg) : M Recordset :=
  let* _ := _update_tab_fields env in
  super_browse arg prefetch.

(** [result["fields"][fieldname] = original_fields[fieldname]] *)
Definition merge_field (original_fields : gmap string Meta)
    (result_fields : gmap string Meta) (fieldname : string)
  : M (gmap string Meta) :=
  match original_fields !! fieldname with
  | Some meta => ret (<[fieldname := meta]> result_fields)
  | None => raise (KeyError fieldname)
  end.

Definition fields_view_get (env : Env) (view_id_ : option Z)
    (view_type : string) (toolbar submenu : bool) : M (ViewResult Meta) :=
  let* result := super_fields_view_get view_id_ view_type toolbar submenu in
  if negb (String.eqb view_type "form")
     || truthy (context_get env "check_view_ids")
  then ret result
  else
    let view := arch result in
    let* '(extra_fields, view) := _add_tab_pages env view in
    let* '(arch', original_fields) :=
      postprocess_and_fields _name view (view_id result) in
    let* fields' :=
      for_each extra_fields (merge_field original_fields) (fields result) in
    ret (mkViewResult arch' fields' (view_id result)).

(** *** Visibility *)

Definition _compute_tabs_visibility (env : Env) (self : list Partner)
  : M (list Partner) :=
  let* tabs := _get_tabs env in
  for_each tabs
    (fun self tab =>
       ret (map (fun this =>
                   setitem this (get_visible_fieldname tab)
                           (compute_visibility tab this))
                self))
    self.

(** ** Running computations *)

Lemma bind_ok {A B} (m : M A) (k : A -> M B) s a s' :
  m s = (Ok a, s') -> bind m k s = k a s'.
Proof. unfold bind. intros ->. reflexivity. Qed.

Lemma bind_raise {A B} (m : M A) (k : A -> M B) s e s' :
  m s = (Raise e, s') -> bind m k s = (Raise e, s').
Proof. unfold bind. intros ->. reflexivity. Qed.

(** A property of the state that every turn of a loop keeps, whether the
    turn returns or raises, holds after the loop. *)
Lemma for_each_state_inv {A B} (P : State -> Prop) (body : B -> A -> M B) :
  (forall acc x s, P s -> P (snd (body acc x s))) ->
  forall l acc s, P s -> P (snd (for_each l body acc s)).
Proof.
  intros Hbody l. induction l as [|x l IH]; intros acc s Hs; simpl.
  - exact Hs.
  - unfold bind. specialize (Hbody acc x s Hs).
    destruct (body acc x s) as [[acc'|e] s1]; simpl in *.
    + apply IH, Hbody.
    + exact Hbody.
Qed.

(** ** The schema under [add_field] *)

Lemma add_field_run tab s :
  exists s',
    add_field tab s = (Ok tt, s')
    /\ _fields s'
       = <[get_fieldname tab := mkFieldObj (S (next_fid s)) (tab_field_desc tab)]>
           (<[get_visible_fieldname tab
              := mkFieldObj (next_fid s) visible_field_desc]> (_fields s))
    /\ _tab_modification_sequence s' = _tab_modification_sequence s
    /\ next_fid s' = S (S (next_fid s)).
Proof.
  unfold add_field, bind, new_field, _add_field, modify, get_state, ret.
  simpl. destruct (_field_computed s !! next_fid s); simpl;
    eexists; repeat split.
Qed.

Lemma add_field_sequence tab s :
  _tab_modification_sequence (snd (add_field tab s))
  = _tab_modification_sequence s.
Proof.
  destruct (add_field_run tab s) as (s' & -> & _ & H & _). exact H.
Qed.

(** ** The revision cache *)

Lemma _need_tab_update_same env s R :
  get_sequence env = Ok R ->
  R = _tab_modification_sequence s ->
  _need_tab_update env s = (Ok false, s).
Proof.
  intros HR ->. unfold _need_tab_update, bind, lift, get_state. rewrite HR.
  rewrite bool_decide_eq_true_2 by reflexivity. reflexivity.
Qed.

Lemma _need_tab_update_changed env s R :
  get_sequence env = Ok R ->
  R <> _tab_modification_sequence s ->
  _need_tab_update env s = (Ok true, set_sequence R s).
Proof.
  intros HR Hne. unfold _need_tab_update, bind, lift, get_state. rewrite HR.
  rewrite bool_decide_eq_false_2 by exact Hne. reflexivity.
Qed.

Lemma _need_tab_update_raise env s e :
  get_sequence env = Raise e ->
  _need_tab_update env s = (Raise e, s).
Proof.
  intros HR. unfold _need_tab_update, bind, lift. rewrite HR. reflexivity.
Qed.

Lemma attach_missing_sequence acc tab s :
  _tab_modification_sequence (snd (attach_missing acc tab s))
  = _tab_modification_sequence s.
Proof.
  unfold attach_missing, bind, get_state.
  destruct (_fields s !! get_fieldname tab).
  - reflexivity.
  - apply add_field_sequence.
Qed.

Lemma _update_tab_fields_sequence env s R :
  get_sequence env = Ok R ->
  _tab_modification_sequence (snd (_update_tab_fields env s)) = R.
Proof.
  intros HR. unfold _update_tab_fields.
  destruct (decide (R = _tab_modification_sequence s)) as [Heq|Hne].
  - rewrite (bind_ok _ _ _ _ _ (_need_tab_update_same env s R HR Heq)).
    simpl. symmetry. exact Heq.
  - rewrite (bind_ok _ _ _ _ _ (_need_tab_update_changed env s R HR Hne)).
    simpl. unfold bind at 1, _get_tabs, lift.
    destruct (get_tabs env) as [tabs|e]; [|reflexivity].
    apply (for_each_state_inv (fun s => _tab_modification_sequence s = R)).
    + intros acc x s0 H0. rewrite attach_missing_sequence. exact H0.
    + reflexivity.
Qed.

(** C2.  When the revision counter of the source equals the cached value,
    [_update_tab_fields] returns at once and leaves the whole class state as
    it was, whatever the tab model would answer (more tabs, or an error);
    and after any [_update_tab_fields], a further one against a source with
    the same counter changes nothing. *)
Theorem reconcile_same_revision_noop env env' s R :
  get_sequence env = Ok R ->
  get_sequence env' = Ok R ->
  (R = _tab_modification_sequence s ->
   _update_tab_fields env s = (Ok tt, s))
  /\ let s1 := snd (_update_tab_fields env s) in
     _update_tab_fields env' s1 = (Ok tt, s1).
Proof.
  intros HR HR'.
  assert (Hnoop : forall en st, get_sequence en = Ok R ->
            R = _tab_modification_sequence st ->
            _update_tab_fields en st = (Ok tt, st)).
  { intros en st Hen Hst. unfold _update_tab_fields.
    rewrite (bind_ok _ _ _ _ _ (_need_tab_update_same en st R Hen Hst)).
    reflexivity. }
  split.
  - intros Heq. apply Hnoop; assumption.
  - simpl. apply Hnoop; [exact HR'|].
    symmetry. apply _update_tab_fields_sequence. exact HR.
Qed.

Lemma _update_tab_fields_sequence_raise env s e :
  get_sequence env = Raise e ->
  _update_tab_fields env s = (Raise e, s).
Proof.
  intros HR. unfold _update_tab_fields.
  rewrite (bind_raise _ _ _ _ _ (_need_tab_update_raise env s e HR)).
  reflexivity.
Qed.

(** C3, as the code has it.  The cache is written inside the staleness
    check, before the tabs are fetched.  If reading the counter raises,
    the exception reaches the caller and nothing was changed.  If the
    counter moved and fetching the tabs raises, the exception reaches the
    caller, no field was attached, and the cache already holds the new
    counter. *)
Theorem reconcile_failure_propagates env s e :
  (get_sequence env = Raise e ->
   _update_tab_fields env s = (Raise e, s))
  /\ (forall R,
        get_sequence env = Ok R ->
        R <> _tab_modification_sequence s ->
        get_tabs env = Raise e ->
        _update_tab_fields env s = (Raise e, set_sequence R s)).
Proof.
  split.
  - apply _update_tab_fields_sequence_raise.
  - intros R HR Hne Htabs. unfold _update_tab_fields.
    rewrite (bind_ok _ _ _ _ _ (_need_tab_update_changed env s R HR Hne)).
    simpl. unfold bind, _get_tabs, lift. rewrite Htabs. reflexivity.
Qed.

(** C10.  The class attribute starts at 0.  Against a source whose counter
    reads 0, [_update_tab_fields] on a state whose cache is 0, the initial
    state in particular, returns at once and attaches nothing, whatever
    tabs the source holds. *)
Theorem reconcile_sentinel_zero env base_fields base_computed n s :
  get_sequence env = Ok 0 ->
  _tab_modification_sequence s = 0 ->
  _tab_modification_sequence (initial_state base_fields base_computed n) = 0
  /\ _update_tab_fields env (initial_state base_fields base_computed n)
     = (Ok tt, initial_state base_fields base_computed n)
  /\ _update_tab_fields env s = (Ok tt, s).
Proof.
  intros HR Hs.
  assert (Hnoop : forall st, _tab_modification_sequence st = 0 ->
            _update_tab_fields env st = (Ok tt, st)).
  { intros st Hst. unfold _update_tab_fields.
    rewrite (bind_ok _ _ _ _ _
               (_need_tab_update_same env st 0 HR (eq_sym Hst))).
    reflexivity. }
  split; [reflexivity|]. split; apply Hnoop; [reflexivity|exact Hs].
Qed.

(** C9.  [browse] runs [_update_tab_fields] first.  If that raises, the
    inherited [browse] is not run and the exception reaches the caller.
    Otherwise the inherited [browse] runs in the state the synchronizer
    left, whose cache equals the counter the source reported. *)
Theorem browse_reconciles_first env arg prefetch s :
  let s1 := snd (_update_tab_fields env s) in
  (forall e, fst (_update_tab_fields env s) = Raise e ->
             browse env arg prefetch s = (Raise e, s1))
  /\ (fst (_update_tab_fields env s) = Ok tt ->
      browse env arg prefetch s = super_browse arg prefetch s1
      /\ exists R, get_sequence env = Ok R
                   /\ _tab_modification_sequence s1 = R).
Proof.
  simpl. unfold browse, bind.
  destruct (_update_tab_fields env s) as [[[]|e0] s1] eqn:E; simpl.
  - split; [intros e He; discriminate|]. intros _. split; [reflexivity|].
    destruct (get_sequence env) as [R|e1] eqn:HR.
    + exists R. split; [reflexivity|].
      pose proof (_update_tab_fields_sequence env s R HR) as H.
      rewrite E in H. exact H.
    + pose proof (_update_tab_fields_sequence_raise env s e1 HR) as H.
      rewrite E in H. discriminate.
  - split; [|intros H; discriminate]. intros e He. congruence.
Qed.

(** C6.  [add_field] registers, under the tab's visible field name, a
    Boolean field computed by [_compute_tabs_visibility], without inverse
    and so read-only, which depends on [is_company] and [category_id]; and
    under the tab's field name a One2many field to
    [res.partner.relation.all] with domain [tab_id = tab.tab_record.id] and
    [active_test] switched off in its context. *)
Theorem add_field_pair tab s :
  get_fieldname tab <> get_visible_fieldname tab ->
  let s' := snd (add_field tab s) in
  exists visible_field tab_field,
    fst (add_field tab s) = Ok tt
    /\ _fields s' !! get_visible_fieldname tab = Some visible_field
    /\ fdesc visible_field = Boolean (Some "_compute_tabs_visibility") None
    /\ is_computed (fdesc visible_field) = true
    /\ readonly (fdesc visible_field) = true
    /\ depends_of (fdesc visible_field) = ["is_company"; "category_id"]
    /\ _fields s' !! get_fieldname tab = Some tab_field
    /\ fdesc tab_field
       = One2many "res.partner.relation.all" "this_partner_id"
                  [("tab_id", "=", tab_record_id tab)]
                  [("active_test", false)]
                  (tab_record_name tab).
Proof.
  intros Hne. simpl.
  destruct (add_field_run tab s) as (s' & -> & Hf & _ & _). simpl.
  exists (mkFieldObj (next_fid s) visible_field_desc),
         (mkFieldObj (S (next_fid s)) (tab_field_desc tab)).
  rewrite Hf. split; [reflexivity|].
  split. { rewrite lookup_insert_ne by exact Hne. apply lookup_insert_eq. }
  repeat (split; [reflexivity|]).
  split; [apply lookup_insert_eq | reflexivity].
Qed.

(** C8.  With [check_view_ids] set in the context, [fields_view_get]
    returns what the inherited method returns, in the state the inherited
    method left: no page, no marker field, no merged metadata. *)
Theorem fields_view_get_validation_mode env view_id_ view_type toolbar submenu s :
  truthy (context_get env "check_view_ids") = true ->
  fields_view_get env view_id_ view_type toolbar submenu s
  = super_fields_view_get view_id_ view_type toolbar submenu s.
Proof.
  intros Hctx. unfold fields_view_get, bind. rewrite Hctx, orb_true_r.
  destruct (super_fields_view_get view_id_ view_type toolbar submenu s)
    as [[result|e] s']; reflexivity.
Qed.

(** ** Pages of a document and what the XPath step selects *)

Lemma doc_pages_cons t a cs :
  doc_pages (Elem t a cs)
  = (if String.eqb t "page" then [Elem t a cs] else [])
    ++ flat_map doc_pages cs.
Proof. reflexivity. Qed.

Lemma doc_pages_nil_inv e :
  doc_pages e = [] ->
  is_page e = false /\ flat_map doc_pages (children e) = [].
Proof.
  destruct e as [t a cs]. rewrite doc_pages_cons. unfold is_page. simpl.
  destruct (String.eqb t "page"); [discriminate|]. simpl. auto.
Qed.

Lemma doc_pages_nil_intro e :
  is_page e = false ->
  flat_map doc_pages (children e) = [] ->
  doc_pages e = [].
Proof.
  destruct e as [t a cs]. rewrite doc_pages_cons. unfold is_page. simpl.
  intros -> ->. reflexivity.
Qed.

Lemma flat_map_doc_pages_nil l :
  flat_map doc_pages l = [] <-> Forall (fun c => doc_pages c = []) l.
Proof.
  induction l as [|c l IH]; simpl.
  - split; [constructor|reflexivity].
  - split.
    + intros H. apply app_eq_nil in H as [Hc Hl].
      constructor; [exact Hc|apply IH, Hl].
    + intros H. inversion H as [|? ? Hc Hl]; subst.
      rewrite Hc. simpl. apply IH, Hl.
Qed.

Lemma no_pages_existsb l :
  flat_map doc_pages l = [] -> existsb is_page l = false.
Proof.
  induction l as [|c l IH]; simpl; [reflexivity|].
  intros H. apply app_eq_nil in H as [Hc Hl].
  apply doc_pages_nil_inv in Hc as [-> _]. simpl. apply IH, Hl.
Qed.

(** A document without pages: the step selects nothing. *)
Lemma children_last_pages_no_pages l :
  Forall (fun c => doc_pages c = [] -> descendant_last_pages c = []) l ->
  flat_map doc_pages l = [] ->
  forall i, children_last_pages descendant_last_pages i l = [].
Proof.
  induction 1 as [|c l Hc _ IH]; intros Hnil i; simpl; [reflexivity|].
  simpl in Hnil. apply app_eq_nil in Hnil as [Hcn Hln].
  rewrite (Hc Hcn), (IH Hln). apply doc_pages_nil_inv in Hcn as [-> _].
  reflexivity.
Qed.

Lemma descendant_last_pages_no_pages e :
  doc_pages e = [] -> descendant_last_pages e = [].
Proof.
  induction e as [t a cs IH] using Element_ind. intros Hnil.
  apply doc_pages_nil_inv in Hnil as [_ Hcs]. simpl in *.
  apply children_last_pages_no_pages; assumption.
Qed.

Lemma xpath_page_last_no_pages view :
  doc_pages view = [] -> xpath_page_last view = [].
Proof.
  intros Hnil. unfold xpath_page_last.
  rewrite (descendant_last_pages_no_pages view Hnil).
  apply doc_pages_nil_inv in Hnil as [-> _]. reflexivity.
Qed.

(** Where the step selects nothing, no page lies below the element. *)
Lemma children_last_pages_nil_inv l :
  Forall (fun c => descendant_last_pages c = [] ->
                   flat_map doc_pages (children c) = []) l ->
  forall i, children_last_pages descendant_last_pages i l = [] ->
            flat_map doc_pages l = [].
Proof.
  induction 1 as [|c l Hc _ IH]; intros i Hnil; simpl; [reflexivity|].
  simpl in Hnil. apply app_eq_nil in Hnil as [HA Hnil].
  apply app_eq_nil in Hnil as [Hmap Hgo].
  apply map_eq_nil in Hmap. rewrite (IH _ Hgo), app_nil_r.
  rewrite (no_pages_existsb l (IH _ Hgo)), andb_true_r in HA.
  apply doc_pages_nil_intro; [|apply Hc, Hmap].
  destruct (is_page c); [discriminate|reflexivity].
Qed.

Lemma descendant_last_pages_nil_inv e :
  descendant_last_pages e = [] -> flat_map doc_pages (children e) = [].
Proof.
  induction e as [t a cs IH] using Element_ind. simpl.
  apply children_last_pages_nil_inv. exact IH.
Qed.

(** The step below an element never selects the element itself. *)
Lemma children_last_pages_not_root rec i l :
  ~ In [] (children_last_pages rec i l).
Proof.
  revert i. induction l as [|c l IH]; intros i; simpl; [tauto|].
  rewrite !in_app_iff, in_map_iff. intros [H|[H|H]].
  - destruct (is_page c && negb (existsb is_page l)); simpl in H;
      [destruct H as [H|[]]; discriminate|destruct H].
  - destruct H as (q & Hq & _). discriminate.
  - exact (IH _ H).
Qed.

Lemma descendant_last_pages_not_root e : ~ In [] (descendant_last_pages e).
Proof. destruct e as [t a cs]. apply children_last_pages_not_root. Qed.

(** Every handle the step yields denotes a node. *)
Lemma children_last_pages_valid l :
  Forall (fun c => forall p, In p (descendant_last_pages c) ->
                             is_Some (subtree p c)) l ->
  forall i p,
    In p (children_last_pages descendant_last_pages i l) ->
    exists k p' c,
      p = (i + k)%nat :: p' /\ l !! k = Some c /\ is_Some (subtree p' c).
Proof.
  induction 1 as [|c l Hc _ IH]; intros i p Hin; simpl in Hin; [destruct Hin|].
  rewrite !in_app_iff, in_map_iff in Hin. destruct Hin as [H|[H|H]].
  - destruct (is_page c && negb (existsb is_page l)); simpl in H;
      [|destruct H].
    destruct H as [<-|[]]. exists 0%nat, [], c.
    rewrite Nat.add_0_r. repeat split. simpl. eauto.
  - destruct H as (q & <- & Hq). exists 0%nat, q, c.
    rewrite Nat.add_0_r. repeat split. apply Hc, Hq.
  - destruct (IH _ _ H) as (k & p' & c' & -> & Hk & Hv).
    exists (S k), p', c'. rewrite Nat.add_succ_r. repeat split; assumption.
Qed.

Lemma descendant_last_pages_valid e p :
  In p (descendant_last_pages e) -> valid_anchor p e.
Proof.
  intros Hin. split.
  { intros ->. exact (descendant_last_pages_not_root e Hin). }
  revert p Hin. induction e as [t a cs IH] using Element_ind.
  intros p Hin. simpl in Hin.
  destruct (children_last_pages_valid cs IH _ _ Hin)
    as (k & p' & c & -> & Hk & Hv).
  simpl. rewrite Hk. exact Hv.
Qed.

(** When the step selects one node only, that node is a tail anchor. *)
Lemma children_last_pages_singleton l :
  Forall (fun c => forall p, descendant_last_pages c = [p] ->
                             is_page c = false -> tail_anchor p c) l ->
  forall i p,
    children_last_pages descendant_last_pages i l = [p] ->
    exists k p' c,
      p = (i + k)%nat :: p'
      /\ l !! k = Some c
      /\ flat_map doc_pages (drop (S k) l) = []
      /\ match p' with [] => True | _ :: _ => tail_anchor p' c end.
Proof.
  assert (Hnil : forall l' j,
            children_last_pages descendant_last_pages j l' = [] ->
            flat_map doc_pages l' = []).
  { intros l' j. apply children_last_pages_nil_inv.
    apply Forall_forall. intros c _. apply descendant_last_pages_nil_inv. }
  induction 1 as [|c l Hc _ IH]; intros i p Hsel; simpl in Hsel;
    [discriminate|].
  destruct (is_page c && negb (existsb is_page l)) eqn:EA; simpl in Hsel.
  - injection Hsel as <- Hrest. apply app_eq_nil in Hrest as [_ Hgo].
    exists 0%nat, [], c. rewrite Nat.add_0_r. repeat split.
    simpl. rewrite drop_0. exact (Hnil _ _ Hgo).
  - destruct (descendant_last_pages c) as [|p0 rest] eqn:Ec; simpl in Hsel.
    + destruct (IH _ _ Hsel) as (k & p' & c' & -> & Hk & Hdrop & Hanchor).
      exists (S k), p', c'. rewrite Nat.add_succ_r. repeat split; assumption.
    + injection Hsel as <- Hrest. apply app_eq_nil in Hrest as [Hmap Hgo].
      apply map_eq_nil in Hmap. subst rest.
      pose proof (Hnil _ _ Hgo) as Hl.
      rewrite (no_pages_existsb l Hl), andb_true_r in EA.
      exists 0%nat, p0, c. rewrite Nat.add_0_r. repeat split.
      * simpl. rewrite drop_0. exact Hl.
      * destruct p0 as [|j q].
        -- exfalso. apply (descendant_last_pages_not_root c).
           rewrite Ec. left. reflexivity.
        -- apply Hc; [reflexivity|exact EA].
Qed.

Lemma descendant_last_pages_singleton e p :
  descendant_last_pages e = [p] -> is_page e = false -> tail_anchor p e.
Proof.
  revert p. induction e as [t a cs IH] using Element_ind.
  intros p Hsel Hpage. simpl in Hsel.
  destruct (children_last_pages_singleton cs IH _ _ Hsel)
    as (k & p' & c & -> & Hk & Hdrop & Hanchor).
  simpl. rewrite Hk. auto.
Qed.

(** ** Inserting after an anchor *)

Lemma next_sibling_cons i j q :
  next_sibling (i :: j :: q) = i :: next_sibling (j :: q).
Proof. reflexivity. Qed.

Lemma addnext_valid p : forall e new,
  valid_anchor p e ->
  exists e', addnext p new e = Some e' /\ valid_anchor (next_sibling p) e'.
Proof.
  induction p as [|i p' IH]; intros [t a cs] new [Hne Hsub]; [done|].
  simpl in Hsub. destruct (cs !! i) as [c|] eqn:Hi; [|destruct Hsub; done].
  pose proof (lookup_lt_Some _ _ _ Hi) as Hlt.
  destruct p' as [|j q].
  - simpl. rewrite bool_decide_eq_true_2 by exact Hlt.
    eexists. split; [reflexivity|]. split; [done|]. simpl.
    rewrite (list_lookup_middle _ _ new (S i)); [eauto|].
    rewrite length_take_le; [reflexivity|lia].
  - destruct (IH c new) as (c' & Hc' & Hne' & Hsub'); [split; done|].
    change (addnext (i :: j :: q) new (Elem t a cs))
      with (match cs !! i with
            | Some c0 => match addnext (j :: q) new c0 with
                         | Some c1 => Some (Elem t a (<[i := c1]> cs))
                         | None => None
                         end
            | None => None
            end).
    rewrite Hi, Hc'. eexists. split; [reflexivity|].
    rewrite next_sibling_cons. split; [done|]. simpl.
    rewrite list_lookup_insert_eq by exact Hlt. exact Hsub'.
Qed.

Lemma append_valid p e f : valid_anchor p e -> valid_anchor p (append e f).
Proof.
  intros [Hne Hsub]. split; [exact Hne|].
  destruct p as [|i p']; [done|]. destruct e as [t a cs]. simpl in *.
  destruct (cs !! i) as [c|] eqn:Hi; [|destruct Hsub; done].
  rewrite lookup_app_l by (eapply lookup_lt_Some; exact Hi).
  rewrite Hi. exact Hsub.
Qed.

Lemma tail_anchor_valid p : forall e, tail_anchor p e -> valid_anchor p e.
Proof.
  induction p as [|i p' IH]; intros [t a cs] H; [destruct H|].
  split; [done|]. simpl in *. destruct H as (_ & _ & H).
  destruct (cs !! i) as [c|]; [|destruct H].
  destruct p' as [|j q]; [eauto|]. apply IH, H.
Qed.



(** ** The loop of [_add_tab_pages] *)

Lemma add_tab_page_sequence acc tab s :
  _tab_modification_sequence (snd (add_tab_page acc tab s))
  = _tab_modification_sequence s.
Proof.
  destruct acc as [[view extra] p]. unfold add_tab_page, bind.
  destruct (add_field_run tab s) as (s1 & -> & _ & Hseq & _). simpl.
  destruct (addnext _ _ _); exact Hseq.
Qed.

Lemma add_tab_pages_loop_sequence tabs acc s :
  _tab_modification_sequence (snd (for_each tabs add_tab_page acc s))
  = _tab_modification_sequence s.
Proof.
  apply (for_each_state_inv
           (fun s' => _tab_modification_sequence s'
                      = _tab_modification_sequence s)).
  - intros acc0 x s0 H. rewrite add_tab_page_sequence. exact H.
  - reflexivity.
Qed.

(** [_add_tab_pages] neither reads nor writes the revision cache. *)
Lemma _add_tab_pages_sequence env view s :
  _tab_modification_sequence (snd (_add_tab_pages env view s))
  = _tab_modification_sequence s.
Proof.
  unfold _add_tab_pages.
  destruct (xpath_page_last view) as [|p rest]; [reflexivity|].
  destruct (xpath_field_id view); simpl;
    unfold bind at 1, _get_tabs, lift;
    (destruct (get_tabs env) as [tabs|e]; [|reflexivity]);
    unfold bind;
    match goal with
    | |- context [for_each tabs add_tab_page ?a s] =>
        pose proof (add_tab_pages_loop_sequence tabs a s) as Hinv;
        destruct (for_each tabs add_tab_page a s) as [[[[v x] l]|e] s']
    end; exact Hinv.
Qed.

Lemma add_tab_page_run view extra p tab s view' :
  addnext p (create_page tab)
          (append view (field_element (get_visible_fieldname tab)))
  = Some view' ->
  exists s',
    add_tab_page (view, extra, p) tab s
    = (Ok (view',
           (extra ++ [get_visible_fieldname tab]) ++ [get_fieldname tab],
           next_sibling p),
       s').
Proof.
  intros Hnext. unfold add_tab_page, bind.
  destruct (add_field_run tab s) as (s1 & -> & _). simpl.
  rewrite Hnext. exists s1. reflexivity.
Qed.

(** The loop under an invariant [J] of the view and the handle, indexed by
    the pages inserted so far: if appending a marker field keeps [J] and
    [addnext] at a handle satisfying [J] succeeds and re-establishes [J] at
    the next sibling, the loop returns. *)
Lemma add_tab_pages_loop (J : list Element -> Element -> Path -> Prop) :
  (forall news v p f, J news v p -> J news (append v (field_element f)) p) ->
  (forall news v p new,
      J news v p ->
      exists v', addnext p new v = Some v'
                 /\ J (news ++ [new]) v' (next_sibling p)) ->
  forall tabs news view extra p s,
    J news view p ->
    exists view' p' s',
      for_each tabs add_tab_page (view, extra, p) s
      = (Ok (view', extra ++ flat_map tab_fieldnames tabs, p'), s')
      /\ J (news ++ map create_page tabs) view' p'.
Proof.
  intros Happ Hnext tabs.
  induction tabs as [|tab tabs IH]; intros news view extra p s HJ; simpl.
  - exists view, p, s. rewrite !app_nil_r. split; [reflexivity|exact HJ].
  - destruct (Hnext _ _ _ (create_page tab)
                (Happ _ _ _ (get_visible_fieldname tab) HJ))
      as (v' & Hv' & HJ').
    destruct (add_tab_page_run view extra p tab s v' Hv') as (s1 & Hstep).
    rewrite (bind_ok _ _ _ _ _ Hstep).
    destruct (IH _ _ ((extra ++ [get_visible_fieldname tab])
                        ++ [get_fieldname tab]) _ s1 HJ')
      as (view' & p' & s' & -> & HJ'').
    exists view', p', s'. split.
    + rewrite <- !app_assoc. reflexivity.
    + rewrite <- app_assoc in HJ''. exact HJ''.
Qed.

Lemma _add_tab_pages_run (J : list Element -> Element -> Path -> Prop) :
  (forall news v p f, J news v p -> J news (append v (field_element f)) p) ->
  (forall news v p new,
      J news v p ->
      exists v', addnext p new v = Some v'
                 /\ J (news ++ [new]) v' (next_sibling p)) ->
  forall env view s tabs p rest,
    get_tabs env = Ok tabs ->
    xpath_page_last view = p :: rest ->
    J [] view p ->
    exists view' p' s',
      _add_tab_pages env view s
      = (Ok (composed_extra_fields view tabs, view'), s')
      /\ J (map create_page tabs) view' p'.
Proof.
  intros Happ Hnext env view s tabs p rest Htabs Hsel HJ.
  unfold _add_tab_pages, composed_extra_fields. rewrite Hsel.
  destruct (xpath_field_id view); simpl;
    unfold bind at 1, _get_tabs, lift; rewrite Htabs; unfold bind.
  - destruct (add_tab_pages_loop J Happ Hnext tabs [] view [] p s HJ)
      as (view' & p' & s' & -> & HJ').
    exists view', p', s'. split; [reflexivity|exact HJ'].
  - destruct (add_tab_pages_loop J Happ Hnext tabs [] _ ["id"] p s
                (Happ _ _ _ "id" HJ))
      as (view' & p' & s' & -> & HJ').
    exists view', p', s'. split; [reflexivity|exact HJ'].
Qed.

(** With the root not a page, [_add_tab_pages] returns whenever the tab
    model answers. *)
Lemma _add_tab_pages_ok env view s tabs :
  get_tabs env = Ok tabs ->
  is_page view = false ->
  exists view' s',
    _add_tab_pages env view s
    = (Ok (composed_extra_fields view tabs, view'), s').
Proof.
  intros Htabs Hroot.
  destruct (xpath_page_last view) as [|p rest] eqn:Hsel.
  - exists view, s. unfold _add_tab_pages, composed_extra_fields.
    rewrite Hsel. reflexivity.
  - assert (Hp : valid_anchor p view).
    { apply descendant_last_pages_valid.
      unfold xpath_page_last in Hsel. rewrite Hroot in Hsel. simpl in Hsel.
      rewrite Hsel. left. reflexivity. }
    destruct (_add_tab_pages_run (fun _ v q => valid_anchor q v)
                (fun _ v q f H => append_valid q v _ H)
                (fun _ v q new H => addnext_valid q v new H)
                env view s tabs p rest Htabs Hsel Hp)
      as (view' & p' & s' & Hrun & _).
    exists view', s'. exact Hrun.
Qed.


Lemma add_tab_pages_no_pages_run env view s :
  doc_pages view = [] ->
  _add_tab_pages env view s = (Ok ([], view), s).
Proof.
  intros Hnil. unfold _add_tab_pages.
  rewrite (xpath_page_last_no_pages view Hnil). reflexivity.
Qed.

(** C7.  On a form without any [page] element, [_add_tab_pages] returns an
    empty list of extra fields and leaves the view as it was; the tab model
    is not consulted and the class state is not touched. *)
Theorem add_tab_pages_no_pages env view s :
  doc_pages view = [] ->
  _add_tab_pages env view s = (Ok ([], view), s).
Proof.
  intros Hnil. unfold _add_tab_pages.
  rewrite (xpath_page_last_no_pages view Hnil). reflexivity.
Qed.

(** All pages children of one element below the root: a special case of a
    tail anchor. *)
Lemma xpath_page_last_single_anchor view i q :
  xpath_page_last view = [i :: q] -> tail_anchor (i :: q) view.
Proof.
  unfold xpath_page_last. intros Hsel.
  destruct (is_page view) eqn:Hroot; simpl in Hsel; [discriminate|].
  apply descendant_last_pages_singleton; assumption.
Qed.




(** ** Merging the metadata of the extra fields *)

Lemma merge_fields_run (original_fields : gmap string Meta) :
  forall extra_fields (result_fields : gmap string Meta) s,
    (forall n, In n extra_fields -> is_Some (original_fields !! n)) ->
    exists fields',
      for_each extra_fields (merge_field original_fields) result_fields s
      = (Ok fields', s)
      /\ (forall n, In n extra_fields ->
                    fields' !! n = original_fields !! n)
      /\ (forall n, ~ In n extra_fields ->
                    fields' !! n = result_fields !! n).
Proof.
  induction extra_fields as [|x l IH]; intros result_fields s Hmeta; simpl.
  - exists result_fields. split; [reflexivity|]. split; [intros n []|auto].
  - destruct (Hmeta x (or_introl eq_refl)) as [meta Hx].
    unfold bind, merge_field at 1. rewrite Hx. unfold ret at 1.
    destruct (IH (<[x := meta]> result_fields) s) as (fields' & -> & Hin & Hout).
    { intros n Hn. apply Hmeta. right. exact Hn. }
    exists fields'. split; [reflexivity|]. split.
    + intros n [<-|Hn]; [|apply Hin, Hn].
      destruct (in_dec string_dec x l) as [Hl|Hl]; [apply Hin, Hl|].
      rewrite (Hout x Hl), lookup_insert_eq, Hx. reflexivity.
    + intros n Hn. rewrite Hout by tauto.
      apply lookup_insert_ne. intros ->. apply Hn. left. reflexivity.
Qed.

(** C4, as the code has it.  For the view type [form] and without
    [check_view_ids] in the context, [fields_view_get] composes the
    inherited form, whose root is not a page, without running
    [_update_tab_fields]: between the inherited call and the
    postprocessing the revision cache is not touched.  The extra fields are
    the [id] marker when it was added and, for each tab, its visible field
    and its relation field; when the postprocessing returns metadata for
    each of them, the returned field map holds that metadata under each
    extra field name and the inherited entry under every other name. *)
Theorem fields_view_get_form env view_id_ toolbar submenu s result s0 tabs :
  truthy (context_get env "check_view_ids") = false ->
  super_fields_view_get view_id_ "form" toolbar submenu s = (Ok result, s0) ->
  is_page (arch result) = false ->
  get_tabs env = Ok tabs ->
  let extra_fields := composed_extra_fields (arch result) tabs in
  exists view' s1,
    _add_tab_pages env (arch result) s0 = (Ok (extra_fields, view'), s1)
    /\ _tab_modification_sequence s1 = _tab_modification_sequence s0
    /\ forall arch' original_fields s2,
         postprocess_and_fields _name view' (view_id result) s1
         = (Ok (arch', original_fields), s2) ->
         (forall n, In n extra_fields -> is_Some (original_fields !! n)) ->
         exists fields',
           fields_view_get env view_id_ "form" toolbar submenu s
           = (Ok (mkViewResult arch' fields' (view_id result)), s2)
           /\ (forall n, In n extra_fields ->
                         fields' !! n = original_fields !! n)
           /\ (forall n, ~ In n extra_fields ->
                         fields' !! n = fields result !! n).
Proof.
  intros Hctx Hsuper Hroot Htabs extra_fields.
  destruct (_add_tab_pages_ok env (arch result) s0 tabs Htabs Hroot)
    as (view' & s1 & Hrun).
  exists view', s1. split; [exact Hrun|]. split.
  { pose proof (_add_tab_pages_sequence env (arch result) s0) as H.
    rewrite Hrun in H. exact H. }
  intros arch' original_fields s2 Hpost Hmeta.
  destruct (merge_fields_run original_fields extra_fields (fields result) s2
              Hmeta) as (fields' & Hmerge & Hin & Hout).
  exists fields'. split; [|split; assumption].
  unfold fields_view_get.
  rewrite (bind_ok _ _ _ _ _ Hsuper), Hctx. simpl.
  rewrite (bind_ok _ _ _ _ _ Hrun).
  rewrite (bind_ok _ _ _ _ _ Hpost).
  rewrite (bind_ok _ _ _ _ _ Hmerge). reflexivity.
Qed.

(** ** Fields already present *)

Lemma NoDup_flat_map_disjoint {A B} (f : A -> list B) l x y b :
  NoDup (flat_map f l) ->
  In x l -> In y l -> x <> y -> In b (f x) -> In b (f y) -> False.
Proof.
  induction l as [|a l IH]; simpl; [tauto|].
  intros Hnd Hx Hy Hne Hbx Hby. apply NoDup_app in Hnd as (_ & Hdisj & Hnd).
  assert (Hin : forall z, In z l -> In b (f z) -> b ∈ flat_map f l).
  { intros z Hz Hbz. apply list_elem_of_In, in_flat_map. eauto. }
  destruct Hx as [->|Hx], Hy as [->|Hy].
  - congruence.
  - apply (Hdisj b); [apply list_elem_of_In, Hbx|eapply Hin; eassumption].
  - apply (Hdisj b); [apply list_elem_of_In, Hby|eapply Hin; eassumption].
  - eapply IH; eassumption.
Qed.

Lemma attach_missing_present acc tab s f :
  _fields s !! get_fieldname tab = Some f ->
  attach_missing acc tab s = (Ok tt, s).
Proof.
  intros H. unfold attach_missing, bind, get_state. rewrite H. reflexivity.
Qed.

Lemma attach_missing_absent acc tab s :
  _fields s !! get_fieldname tab = None ->
  attach_missing acc tab s = add_field tab s.
Proof.
  intros H. unfold attach_missing, bind, get_state. rewrite H. reflexivity.
Qed.

Lemma attach_missing_loop_keeps tab l :
  (forall u, In u l ->
             u = tab
             \/ (get_fieldname u <> get_fieldname tab
                 /\ get_fieldname u <> get_visible_fieldname tab
                 /\ get_visible_fieldname u <> get_fieldname tab
                 /\ get_visible_fieldname u <> get_visible_fieldname tab)) ->
  forall s,
    is_Some (_fields s !! get_fieldname tab) ->
    let s' := snd (for_each l attach_missing tt s) in
    _fields s' !! get_fieldname tab = _fields s !! get_fieldname tab
    /\ _fields s' !! get_visible_fieldname tab
       = _fields s !! get_visible_fieldname tab.
Proof.
  induction l as [|u l IH]; intros Hl s Hs; simpl; [auto|].
  assert (Hl' : forall u0, In u0 l ->
            u0 = tab
            \/ (get_fieldname u0 <> get_fieldname tab
                /\ get_fieldname u0 <> get_visible_fieldname tab
                /\ get_visible_fieldname u0 <> get_fieldname tab
                /\ get_visible_fieldname u0 <> get_visible_fieldname tab))
    by (intros u0 Hu0; apply Hl; right; exact Hu0).
  destruct (_fields s !! get_fieldname u) as [f|] eqn:Hu.
  - rewrite (bind_ok _ _ _ _ _ (attach_missing_present tt u s f Hu)).
    apply (IH Hl' s Hs).
  - destruct (add_field_run u s) as (s1 & Hrun & Hf & _).
    rewrite <- (attach_missing_absent tt u s Hu) in Hrun.
    rewrite (bind_ok _ _ _ _ _ Hrun).
    destruct (Hl u (or_introl eq_refl)) as [->|(H1 & H2 & H3 & H4)].
    { rewrite Hu in Hs. destruct Hs; discriminate. }
    assert (Hk1 : _fields s1 !! get_fieldname tab
                  = _fields s !! get_fieldname tab).
    { rewrite Hf, !lookup_insert_ne by assumption. reflexivity. }
    assert (Hk2 : _fields s1 !! get_visible_fieldname tab
                  = _fields s !! get_visible_fieldname tab).
    { rewrite Hf, !lookup_insert_ne by assumption. reflexivity. }
    destruct (IH Hl' s1) as [HA HB]; [rewrite Hk1; exact Hs|].
    simpl in HA, HB. rewrite HA, HB. auto.
Qed.

(** C1, as the code has it.  [_update_tab_fields] never replaces the pair of
    a tab whose field name is already in [_fields], given that the names
    the tab library derives for the tabs are pairwise distinct: the tab is
    skipped and both entries stay what they were.  [add_field], which
    [_add_tab_pages] calls for every tab, does replace: afterwards the
    two names hold field objects created by this call. *)
Theorem reconcile_keeps_present_pair env s tabs tab :
  get_tabs env = Ok tabs ->
  NoDup (flat_map tab_fieldnames tabs) ->
  In tab tabs ->
  is_Some (_fields s !! get_fieldname tab) ->
  let s' := snd (_update_tab_fields env s) in
  (_fields s' !! get_fieldname tab = _fields s !! get_fieldname tab
   /\ _fields s' !! get_visible_fieldname tab
      = _fields s !! get_visible_fieldname tab)
  /\ (_fields (snd (add_field tab s)) !! get_fieldname tab
      = Some (mkFieldObj (S (next_fid s)) (tab_field_desc tab))
      /\ (get_fieldname tab <> get_visible_fieldname tab ->
          _fields (snd (add_field tab s)) !! get_visible_fieldname tab
          = Some (mkFieldObj (next_fid s) visible_field_desc))).
Proof.
  intros Htabs Hnd Hin Hs. simpl. split.
  - unfold _update_tab_fields.
    destruct (get_sequence env) as [R|e] eqn:HR.
    2:{ rewrite (bind_raise _ _ _ _ _ (_need_tab_update_raise env s e HR)).
        auto. }
    destruct (decide (R = _tab_modification_sequence s)) as [Heq|Hne].
    { rewrite (bind_ok _ _ _ _ _ (_need_tab_update_same env s R HR Heq)).
      auto. }
    rewrite (bind_ok _ _ _ _ _ (_need_tab_update_changed env s R HR Hne)).
    simpl. unfold bind, _get_tabs, lift. rewrite Htabs.
    change (_fields s) with (_fields (set_sequence R s)).
    apply (attach_missing_loop_keeps tab tabs); [|exact Hs].
    intros u Hu. destruct (decide (u = tab)) as [->|Hne']; [left; reflexivity|].
    right.
    repeat split; intros Heq;
      [ apply (NoDup_flat_map_disjoint tab_fieldnames tabs u tab
                 (get_fieldname u) Hnd Hu Hin Hne')
      | apply (NoDup_flat_map_disjoint tab_fieldnames tabs u tab
                 (get_fieldname u) Hnd Hu Hin Hne')
      | apply (NoDup_flat_map_disjoint tab_fieldnames tabs u tab
                 (get_visible_fieldname u) Hnd Hu Hin Hne')
      | apply (NoDup_flat_map_disjoint tab_fieldnames tabs u tab
                 (get_visible_fieldname u) Hnd Hu Hin Hne') ];
      unfold tab_fieldnames; simpl; rewrite ?Heq; auto.
  - destruct (add_field_run tab s) as (s1 & -> & Hf & _). simpl.
    rewrite Hf. split; [apply lookup_insert_eq|].
    intros Hne. rewrite lookup_insert_ne by exact Hne.
    apply lookup_insert_eq.
Qed.

(** From here on a proof depends on the variables of its statement only. *)
Set Default Proof Using "Type*".

(** ** More on the synchronizer *)

(** One turn of the loop returns, never removes a name, touches only the two
    names of its tab, and leaves the field name of its tab present. *)
Lemma attach_missing_step acc tab s :
  exists s1,
    attach_missing acc tab s = (Ok tt, s1)
    /\ _tab_modification_sequence s1 = _tab_modification_sequence s
    /\ is_Some (_fields s1 !! get_fieldname tab)
    /\ (forall n, is_Some (_fields s !! n) -> is_Some (_fields s1 !! n))
    /\ (forall n, n <> get_fieldname tab -> n <> get_visible_fieldname tab ->
                  _fields s1 !! n = _fields s !! n)
    /\ (is_Some (_fields s !! get_fieldname tab) -> s1 = s)
    /\ (_fields s !! get_fieldname tab = None ->
        forall n, is_Some (_fields s1 !! n)
                  <-> n = get_fieldname tab \/ n = get_visible_fieldname tab
                      \/ is_Some (_fields s !! n)).
Proof.
  destruct (_fields s !! get_fieldname tab) as [f|] eqn:Hf.
  - exists s. rewrite (attach_missing_present acc tab s f Hf).
    rewrite Hf. repeat split; eauto; discriminate.
  - destruct (add_field_run tab s) as (s1 & Hrun & Hfields & Hseq & _).
    exists s1. rewrite (attach_missing_absent acc tab s Hf), Hrun, Hfields.
    split; [reflexivity|]. split; [exact Hseq|].
    split; [rewrite lookup_insert_eq; eauto|].
    split; [|split; [|split]].
    + intros n Hn. rewrite !lookup_insert_is_Some'. auto.
    + intros n H1 H2. rewrite !lookup_insert_ne by congruence. reflexivity.
    + intros [x Hx]. discriminate.
    + intros _ n. rewrite !lookup_insert_is_Some'.
      split; intros [H|[H|H]]; subst; auto.
Qed.

Lemma attach_missing_loop_run l : forall s,
  exists s',
    for_each l attach_missing tt s = (Ok tt, s')
    /\ _tab_modification_sequence s' = _tab_modification_sequence s
    /\ (forall tab, In tab l -> is_Some (_fields s' !! get_fieldname tab))
    /\ (forall n, is_Some (_fields s !! n) -> is_Some (_fields s' !! n))
    /\ (forall n,
          (forall tab, In tab l ->
                       n <> get_fieldname tab /\ n <> get_visible_fieldname tab) ->
          _fields s' !! n = _fields s !! n)
    /\ ((forall tab, In tab l -> is_Some (_fields s !! get_fieldname tab)) ->
        s' = s).
Proof.
  induction l as [|u l IH]; intros s; simpl.
  - exists s. repeat split; auto. intros tab [].
  - destruct (attach_missing_step tt u s)
      as (s1 & Hstep & Hseq1 & Hu & Hmono1 & Hframe1 & Hskip1 & _).
    destruct (IH s1) as (s' & Hrun & Hseq & Hall & Hmono & Hframe & Hskip).
    exists s'. rewrite (bind_ok _ _ _ _ _ Hstep), Hrun.
    split; [reflexivity|]. split; [congruence|].
    split; [|split; [|split]].
    + intros tab [<-|Hin]; [apply Hmono, Hu|apply Hall, Hin].
    + intros n Hn. apply Hmono, Hmono1, Hn.
    + intros n Hn. rewrite Hframe by (intros tab Hin; apply Hn; right; exact Hin).
      destruct (Hn u (or_introl eq_refl)) as [H1 H2]. apply Hframe1; assumption.
    + intros Hpresent.
      assert (s1 = s) as -> by (apply Hskip1, Hpresent; left; reflexivity).
      apply Hskip. intros tab Hin. apply Hpresent. right. exact Hin.
Qed.

(** X1.  Once the counter has moved and the tab model answers,
    [_update_tab_fields] returns, the cache holds the counter, and the field
    name of every tab is in [_fields]. *)
Theorem reconcile_attaches_all_tabs env s R tabs :
  get_sequence env = Ok R ->
  R <> _tab_modification_sequence s ->
  get_tabs env = Ok tabs ->
  exists s',
    _update_tab_fields env s = (Ok tt, s')
    /\ _tab_modification_sequence s' = R
    /\ forall tab, In tab tabs -> is_Some (_fields s' !! get_fieldname tab).
Proof.
  intros HR Hne Htabs. unfold _update_tab_fields.
  rewrite (bind_ok _ _ _ _ _ (_need_tab_update_changed env s R HR Hne)).
  simpl. unfold bind, _get_tabs, lift. rewrite Htabs.
  destruct (attach_missing_loop_run tabs (set_sequence R s))
    as (s' & Hrun & Hseq & Hall & _).
  exists s'. split; [exact Hrun|]. split; [exact Hseq|exact Hall].
Qed.

(** The state of the schema after [_update_tab_fields], whatever the
    sources answer: the state of [_fields] after the loop over the tabs, or
    [_fields] as it was. *)
Lemma _update_tab_fields_fields env s :
  _fields (snd (_update_tab_fields env s)) = _fields s
  \/ exists R tabs,
       get_sequence env = Ok R /\ get_tabs env = Ok tabs
       /\ snd (_update_tab_fields env s)
          = snd (for_each tabs attach_missing tt (set_sequence R s)).
Proof.
  unfold _update_tab_fields.
  destruct (get_sequence env) as [R|e] eqn:HR.
  2:{ rewrite (bind_raise _ _ _ _ _ (_need_tab_update_raise env s e HR)).
      left. reflexivity. }
  destruct (decide (R = _tab_modification_sequence s)) as [Heq|Hne].
  { rewrite (bind_ok _ _ _ _ _ (_need_tab_update_same env s R HR Heq)).
    left. reflexivity. }
  rewrite (bind_ok _ _ _ _ _ (_need_tab_update_changed env s R HR Hne)).
  simpl. unfold bind, _get_tabs, lift.
  destruct (get_tabs env) as [tabs|e] eqn:Htabs.
  - right. exists R, tabs. auto.
  - left. reflexivity.
Qed.

(** X3.  [_update_tab_fields] only adds to the schema: whatever the sources
    answer, a name that was in [_fields] still is, and a name that is
    neither the field name nor the visible field name of a tab of the tab
    model keeps its field object. *)
Theorem reconcile_schema_additive env s :
  let s' := snd (_update_tab_fields env s) in
  (forall n, is_Some (_fields s !! n) -> is_Some (_fields s' !! n))
  /\ (forall n,
        (forall tabs tab,
            get_tabs env = Ok tabs -> In tab tabs ->
            n <> get_fieldname tab /\ n <> get_visible_fieldname tab) ->
        _fields s' !! n = _fields s !! n).
Proof.
  simpl.
  destruct (_update_tab_fields_fields env s)
    as [Heq|(R & tabs & HR & Htabs & Heq)]; rewrite Heq.
  - auto.
  - destruct (attach_missing_loop_run tabs (set_sequence R s))
      as (s' & Hrun & _ & _ & Hmono & Hframe & _).
    rewrite Hrun. simpl. split; [exact Hmono|].
    intros n Hn. apply Hframe. intros tab Hin. exact (Hn tabs tab Htabs Hin).
Qed.

(** X15.  When the field name of every tab is already in [_fields], a moved
    counter only moves the cache: nothing else of the class state changes. *)
Theorem reconcile_all_present_moves_cache_only env s R tabs :
  get_sequence env = Ok R ->
  get_tabs env = Ok tabs ->
  (forall tab, In tab tabs -> is_Some (_fields s !! get_fieldname tab)) ->
  _update_tab_fields env s = (Ok tt, set_sequence R s).
Proof.
  intros HR Htabs Hpresent. unfold _update_tab_fields.
  destruct (decide (R = _tab_modification_sequence s)) as [Heq|Hne].
  { rewrite (bind_ok _ _ _ _ _ (_need_tab_update_same env s R HR Heq)).
    simpl. subst R. destruct s; reflexivity. }
  rewrite (bind_ok _ _ _ _ _ (_need_tab_update_changed env s R HR Hne)).
  simpl. unfold bind, _get_tabs, lift. rewrite Htabs.
  destruct (attach_missing_loop_run tabs (set_sequence R s))
    as (s' & Hrun & _ & _ & _ & _ & Hskip).
  rewrite Hrun, (Hskip Hpresent). reflexivity.
Qed.

(** The loop adds the two names of the tabs whose field name was missing,
    and no other name. *)
Lemma attach_missing_loop_exact l : forall s,
  NoDup (flat_map tab_fieldnames l) ->
  forall n,
    is_Some (_fields (snd (for_each l attach_missing tt s)) !! n)
    <-> is_Some (_fields s !! n)
        \/ exists tab, In tab l
                       /\ _fields s !! get_fieldname tab = None
                       /\ In n (tab_fieldnames tab).
Proof.
  induction l as [|u l IH]; intros s Hnd n; simpl.
  - split; [auto|]. intros [H|(tab & [] & _)]. exact H.
  - change (flat_map tab_fieldnames (u :: l))
      with (tab_fieldnames u ++ flat_map tab_fieldnames l) in Hnd.
    apply NoDup_app in Hnd as (_ & Hdisj & Hnd).
    assert (Hother : forall tab b, In tab l -> In b (tab_fieldnames tab) ->
                                   ~ In b (tab_fieldnames u)).
    { intros tab b Hin Hb Hbu. apply (Hdisj b).
      - apply list_elem_of_In, Hbu.
      - apply list_elem_of_In, in_flat_map. eauto. }
    destruct (attach_missing_step tt u s)
      as (s1 & Hstep & _ & _ & _ & Hframe1 & Hskip1 & Hadd1).
    rewrite (bind_ok _ _ _ _ _ Hstep), (IH s1 Hnd n).
    assert (Hsame : forall tab, In tab l ->
              _fields s1 !! get_fieldname tab
              = _fields s !! get_fieldname tab).
    { intros tab Hin. apply Hframe1; intros Heq;
        apply (Hother tab (get_fieldname tab) Hin);
        unfold tab_fieldnames; simpl; auto. }
    destruct (_fields s !! get_fieldname u) as [f|] eqn:Hu.
    + assert (s1 = s) as -> by (apply Hskip1; eauto).
      split.
      * intros [H|(tab & Hin & Hnone & Hn)]; [auto|].
        right. exists tab. auto.
      * intros [H|(tab & [<-|Hin] & Hnone & Hn)]; [auto|congruence|].
        right. exists tab. auto.
    + rewrite (Hadd1 eq_refl n). split.
      * intros [[->|[->|H]]|(tab & Hin & Hnone & Hn)].
        -- right. exists u. unfold tab_fieldnames. simpl. auto.
        -- right. exists u. unfold tab_fieldnames. simpl. auto.
        -- auto.
        -- right. exists tab. rewrite <- (Hsame tab Hin). auto.
      * intros [H|(tab & [<-|Hin] & Hnone & Hn)].
        -- auto.
        -- left. unfold tab_fieldnames in Hn. simpl in Hn.
           destruct Hn as [<-|[<-|[]]]; auto.
        -- right. exists tab. rewrite (Hsame tab Hin). auto.
Qed.

(** X2.  Once the counter has moved and the tab model answers with tabs
    whose derived names are pairwise distinct, the names in [_fields] after
    [_update_tab_fields] are the names that were there and the two names of
    every tab whose field name was missing: nothing else is added. *)
Theorem reconcile_adds_exactly_missing env s R tabs :
  get_sequence env = Ok R ->
  R <> _tab_modification_sequence s ->
  get_tabs env = Ok tabs ->
  NoDup (flat_map tab_fieldnames tabs) ->
  forall n,
    is_Some (_fields (snd (_update_tab_fields env s)) !! n)
    <-> is_Some (_fields s !! n)
        \/ exists tab, In tab tabs
                       /\ _fields s !! get_fieldname tab = None
                       /\ In n (tab_fieldnames tab).
Proof.
  intros HR Hne Htabs Hnd n. unfold _update_tab_fields.
  rewrite (bind_ok _ _ _ _ _ (_need_tab_update_changed env s R HR Hne)).
  simpl. unfold bind, _get_tabs, lift. rewrite Htabs.
  exact (attach_missing_loop_exact tabs (set_sequence R s) Hnd n).
Qed.

(** ** More on the composer: the schema *)

Lemma add_tab_page_state acc tab s :
  snd (add_tab_page acc tab s) = snd (add_field tab s).
Proof.
  destruct acc as [[view extra] p]. unfold add_tab_page, bind.
  destruct (add_field_run tab s) as (s1 & -> & _). simpl.
  destruct (addnext _ _ _); reflexivity.
Qed.

(** The state after the loop is the state after [add_field] on the tabs the
    loop got to: all of them when it returns. *)
Lemma add_tab_pages_loop_state l : forall acc s,
  exists done rest,
    l = done ++ rest
    /\ snd (for_each l add_tab_page acc s)
       = fold_left (fun s0 tab => snd (add_field tab s0)) done s
    /\ (forall r, fst (for_each l add_tab_page acc s) = Ok r -> rest = []).
Proof.
  induction l as [|u l IH]; intros acc s; simpl.
  - exists [], []. repeat split.
  - unfold bind. pose proof (add_tab_page_state acc u s) as Hstate.
    destruct (add_tab_page acc u s) as [[acc'|e] s1]; simpl in Hstate.
    + destruct (IH acc' s1) as (done & rest & -> & Hsnd & Hok).
      exists (u :: done), rest. simpl. rewrite <- Hstate.
      repeat split; assumption.
    + exists [u], l. simpl. rewrite <- Hstate.
      repeat split. intros r Hr. discriminate.
Qed.

Lemma add_fields_fold l : forall s,
  let s' := fold_left (fun s0 tab => snd (add_field tab s0)) l s in
  _tab_modification_sequence s' = _tab_modification_sequence s
  /\ (forall n, is_Some (_fields s !! n) -> is_Some (_fields s' !! n))
  /\ (forall n,
        (forall tab, In tab l ->
                     n <> get_fieldname tab /\ n <> get_visible_fieldname tab) ->
        _fields s' !! n = _fields s !! n).
Proof.
  induction l as [|u l IH]; intros s; simpl; [auto|].
  destruct (add_field_run u s) as (s1 & Hrun & Hfields & Hseq & _).
  rewrite Hrun. simpl. destruct (IH s1) as (Hseq' & Hmono & Hframe).
  split; [congruence|]. split.
  - intros n Hn. apply Hmono. rewrite Hfields, !lookup_insert_is_Some'. auto.
  - intros n Hn.
    rewrite Hframe by (intros tab Hin; apply Hn; right; exact Hin).
    destruct (Hn u (or_introl eq_refl)) as [H1 H2].
    rewrite Hfields, !lookup_insert_ne by congruence. reflexivity.
Qed.

(** The state of the schema after [_add_tab_pages], whatever happens: the
    state as it was, when the view has no page or the tab model raises, and
    otherwise the state after [add_field] on a first part of the tabs. *)
Lemma _add_tab_pages_state env view s :
  ((xpath_page_last view = [] \/ exists e, get_tabs env = Raise e)
   /\ snd (_add_tab_pages env view s) = s)
  \/ exists tabs done rest,
       get_tabs env = Ok tabs /\ tabs = done ++ rest
       /\ snd (_add_tab_pages env view s)
          = fold_left (fun s0 tab => snd (add_field tab s0)) done s
       /\ (forall r, fst (_add_tab_pages env view s) = Ok r -> rest = []).
Proof.
  unfold _add_tab_pages.
  destruct (xpath_page_last view) as [|p ps]; [left; auto|].
  destruct (xpath_field_id view); simpl;
    unfold bind at 1, _get_tabs, lift;
    (destruct (get_tabs env) as [tabs|e]; [|left; eauto]);
    right; unfold bind;
    match goal with
    | |- context [for_each tabs add_tab_page ?a s] =>
        destruct (add_tab_pages_loop_state tabs a s)
          as (done & rest & Hsplit & Hsnd & Hok);
        exists tabs, done, rest;
        destruct (for_each tabs add_tab_page a s) as [[[[v x] l]|e] s']
    end; simpl in *; repeat split; auto;
    try (intros r Hr; discriminate); intros r Hr; apply (Hok _ eq_refl).
Qed.

(** X4.  [_add_tab_pages] only adds to the schema, whether it returns or
    raises: a name that was in [_fields] still is, and a name that is neither
    the field name nor the visible field name of a tab of the tab model
    keeps its field object. *)
Theorem compose_schema_additive env view s :
  let s' := snd (_add_tab_pages env view s) in
  (forall n, is_Some (_fields s !! n) -> is_Some (_fields s' !! n))
  /\ (forall n,
        (forall tabs tab,
            get_tabs env = Ok tabs -> In tab tabs ->
            n <> get_fieldname tab /\ n <> get_visible_fieldname tab) ->
        _fields s' !! n = _fields s !! n).
Proof.
  simpl.
  destruct (_add_tab_pages_state env view s)
    as [[_ ->]|(tabs & done & rest & Htabs & Hsplit & -> & _)]; [auto|].
  destruct (add_fields_fold done s) as (_ & Hmono & Hframe).
  split; [exact Hmono|]. intros n Hn. apply Hframe.
  intros tab Hin. apply (Hn tabs tab Htabs). rewrite Hsplit.
  apply in_or_app. left. exact Hin.
Qed.

Lemma add_fields_fold_descriptors l : forall s,
  NoDup (flat_map tab_fieldnames l) ->
  let s' := fold_left (fun s0 tab => snd (add_field tab s0)) l s in
  forall tab, In tab l ->
    fdesc <$> _fields s' !! get_fieldname tab = Some (tab_field_desc tab)
    /\ fdesc <$> _fields s' !! get_visible_fieldname tab
       = Some visible_field_desc.
Proof.
  induction l as [|u l IH]; intros s Hnd; simpl; [intros tab []|].
  change (flat_map tab_fieldnames (u :: l))
    with (tab_fieldnames u ++ flat_map tab_fieldnames l) in Hnd.
  apply NoDup_app in Hnd as (Hu & Hdisj & Hnd).
  destruct (add_field_run u s) as (s1 & Hrun & Hfields & _).
  rewrite Hrun. simpl. intros tab [<-|Hin]; [|apply (IH s1 Hnd), Hin].
  destruct (add_fields_fold l s1) as (_ & _ & Hframe).
  assert (Hfresh : forall b, In b (tab_fieldnames u) ->
            forall tab, In tab l ->
                        b <> get_fieldname tab /\ b <> get_visible_fieldname tab).
  { intros b Hb tab Hin.
    assert (Hnot : forall c, In c (tab_fieldnames tab) -> b <> c).
    { intros c Hc ->. apply (Hdisj c); [apply list_elem_of_In, Hb|].
      apply list_elem_of_In, in_flat_map. eauto. }
    split; apply Hnot; unfold tab_fieldnames; simpl; auto. }
  assert (Hne : get_fieldname u <> get_visible_fieldname u).
  { intros Heq. unfold tab_fieldnames in Hu. rewrite Heq in Hu.
    apply NoDup_cons in Hu as [Hu _]. apply Hu. left. }
  rewrite !Hframe by (apply Hfresh; unfold tab_fieldnames; simpl; auto).
  rewrite Hfields, lookup_insert_eq, lookup_insert_ne, lookup_insert_eq
    by exact Hne.
  split; reflexivity.
Qed.

Lemma xpath_page_last_nil_inv view :
  xpath_page_last view = [] -> doc_pages view = [].
Proof.
  unfold xpath_page_last. intros H. apply app_eq_nil in H as [Hroot Hdesc].
  apply doc_pages_nil_intro.
  - destruct (is_page view); [discriminate|reflexivity].
  - apply descendant_last_pages_nil_inv, Hdesc.
Qed.

(** On a view with pages whose root is not a page, with the tab model
    answering, [_add_tab_pages] returns and has run [add_field] on every
    tab. *)
Lemma _add_tab_pages_ok_state env view s tabs :
  get_tabs env = Ok tabs ->
  is_page view = false ->
  doc_pages view <> [] ->
  exists view',
    _add_tab_pages env view s
    = (Ok (composed_extra_fields view tabs, view'),
       fold_left (fun s0 tab => snd (add_field tab s0)) tabs s).
Proof.
  intros Htabs Hroot Hpages.
  destruct (_add_tab_pages_ok env view s tabs Htabs Hroot) as (view' & s' & Hrun).
  exists view'. rewrite Hrun. f_equal.
  destruct (_add_tab_pages_state env view s)
    as [[[Hnil|[e He]] _]|(tabs' & done & rest & Htabs' & Hsplit & Hsnd & Hok)].
  - exfalso. apply Hpages, xpath_page_last_nil_inv, Hnil.
  - congruence.
  - rewrite Hrun in Hsnd, Hok. simpl in Hsnd.
    rewrite (Hok _ eq_refl), app_nil_r in Hsplit.
    assert (tabs = done) as -> by congruence. exact Hsnd.
Qed.

(** X5.  On a view with pages whose root is not a page, with the tab model
    answering with tabs whose derived names are pairwise distinct,
    [_add_tab_pages] returns and leaves the schema with the pair of every
    tab, built from the tab as it is now: the relation field under the field
    name, the computed Boolean under the visible field name. *)
Theorem compose_attaches_every_pair env view s tabs :
  get_tabs env = Ok tabs ->
  is_page view = false ->
  doc_pages view <> [] ->
  NoDup (flat_map tab_fieldnames tabs) ->
  exists view' s',
    _add_tab_pages env view s
    = (Ok (composed_extra_fields view tabs, view'), s')
    /\ forall tab, In tab tabs ->
         fdesc <$> _fields s' !! get_fieldname tab = Some (tab_field_desc tab)
         /\ fdesc <$> _fields s' !! get_visible_fieldname tab
            = Some visible_field_desc.
Proof.
  intros Htabs Hroot Hpages Hnd.
  destruct (_add_tab_pages_ok_state env view s tabs Htabs Hroot Hpages)
    as (view' & Hrun).
  eexists view', _. split; [exact Hrun|].
  exact (add_fields_fold_descriptors tabs s Hnd).
Qed.

(** ** More on the composer: computed fields *)

Lemma add_field_computed tab s :
  _field_computed s !! next_fid s = None ->
  _field_computed (snd (add_field tab s))
  = <[next_fid s := [next_fid s]]> (_field_computed s).
Proof.
  intros Hfresh.
  unfold add_field, bind, new_field, _add_field, modify, get_state, ret.
  simpl. rewrite Hfresh. reflexivity.
Qed.

Lemma add_fields_fold_computed l : forall s,
  (forall k, is_Some (_field_computed s !! k) -> (k < next_fid s)%nat) ->
  let s' := fold_left (fun s0 tab => snd (add_field tab s0)) l s in
  (forall k, is_Some (_field_computed s' !! k) -> (k < next_fid s')%nat)
  /\ size (_field_computed s') = (size (_field_computed s) + length l)%nat.
Proof.
  induction l as [|u l IH]; intros s Hwf; simpl; [split; [exact Hwf|lia]|].
  assert (Hfresh : _field_computed s !! next_fid s = None).
  { destruct (_field_computed s !! next_fid s) eqn:E; [|reflexivity].
    assert (next_fid s < next_fid s)%nat by (apply Hwf; rewrite E; eauto). lia. }
  pose proof (add_field_computed u s Hfresh) as Hcomp.
  destruct (add_field_run u s) as (s1 & Hrun & _ & _ & Hnext).
  rewrite Hrun in Hcomp |- *. simpl in Hcomp |- *.
  destruct (IH s1) as [Hwf' Hsize].
  { intros k Hk. rewrite Hcomp, lookup_insert_is_Some' in Hk.
    rewrite Hnext. destruct Hk as [<-|Hk]; [lia|]. apply Hwf in Hk. lia. }
  split; [exact Hwf'|].
  rewrite Hsize, Hcomp, map_size_insert_None by exact Hfresh. lia.
Qed.

(** X14.  Every [add_field] registers its new visible field in
    [_field_computed]: composing a view with pages adds one entry per tab,
    whether or not the pair of the tab was in the schema before.  The
    hypothesis on the state says that the field objects in
    [_field_computed] were created earlier. *)
Theorem compose_registers_computed_fields env view s tabs :
  (forall k, is_Some (_field_computed s !! k) -> (k < next_fid s)%nat) ->
  get_tabs env = Ok tabs ->
  is_page view = false ->
  doc_pages view <> [] ->
  exists view' s',
    _add_tab_pages env view s
    = (Ok (composed_extra_fields view tabs, view'), s')
    /\ size (_field_computed s')
       = (size (_field_computed s) + length tabs)%nat.
Proof.
  intros Hwf Htabs Hroot Hpages.
  destruct (_add_tab_pages_ok_state env view s tabs Htabs Hroot Hpages)
    as (view' & Hrun).
  eexists view', _. split; [exact Hrun|].
  exact (proj2 (add_fields_fold_computed tabs s Hwf)).
Qed.

(** ** More on the composer: the view *)

Lemma xpath_field_id_append e f :
  xpath_field_id (append e f) = xpath_field_id e || xpath_field_id f.
Proof.
  destruct e as [t a cs]. simpl. rewrite existsb_app. simpl.
  rewrite orb_false_r, orb_assoc. reflexivity.
Qed.

Lemma addnext_keeps_field_id p : forall e new e',
  addnext p new e = Some e' ->
  xpath_field_id e = true ->
  xpath_field_id e' = true.
Proof.
  induction p as [|i p' IH]; intros [t a cs] new e' Hnext Hid; [discriminate|].
  simpl in Hid. apply orb_true_iff in Hid.
  destruct p' as [|j q].
  - simpl in Hnext. destruct (bool_decide (i < length cs)%nat); [|discriminate].
    injection Hnext as <-. simpl. apply orb_true_iff.
    destruct Hid as [Hid|Hid]; [left; exact Hid|right].
    rewrite <- (take_drop (S i) cs), existsb_app in Hid.
    rewrite existsb_app. simpl. apply orb_true_iff in Hid.
    destruct Hid as [ -> | -> ]; [reflexivity|]. rewrite !orb_true_r. reflexivity.
  - change (addnext (i :: j :: q) new (Elem t a cs))
      with (match cs !! i with
            | Some c0 => match addnext (j :: q) new c0 with
                         | Some c1 => Some (Elem t a (<[i := c1]> cs))
                         | None => None
                         end
            | None => None
            end) in Hnext.
    destruct (cs !! i) as [c|] eqn:Hi; [|discriminate].
    destruct (addnext (j :: q) new c) as [c'|] eqn:Hc'; [|discriminate].
    injection Hnext as <-. simpl. apply orb_true_iff.
    destruct Hid as [Hid|Hid]; [left; exact Hid|right].
    rewrite insert_take_drop by (eapply lookup_lt_Some; exact Hi).
    rewrite <- (take_drop_middle cs i c Hi), existsb_app in Hid.
    rewrite existsb_app. simpl in *.
    apply orb_true_iff in Hid. destruct Hid as [ -> | Hid ]; [reflexivity|].
    apply orb_true_iff in Hid. destruct Hid as [ Hid | -> ].
    + rewrite (IH c new c' Hc' Hid), orb_true_r. reflexivity.
    + rewrite !orb_true_r. reflexivity.
Qed.

(** X6.  On a view with pages whose root is not a page, with the tab model
    answering, the view [_add_tab_pages] leaves holds a field named [id]:
    the one it had, or the invisible one the method appends, in which case
    [id] is the first of the extra fields. *)
Theorem compose_ensures_id_field env view s tabs :
  get_tabs env = Ok tabs ->
  is_page view = false ->
  doc_pages view <> [] ->
  exists view' s',
    _add_tab_pages env view s
    = (Ok ((if xpath_field_id view then [] else ["id"])
           ++ flat_map tab_fieldnames tabs, view'), s')
    /\ xpath_field_id view' = true.
Proof.
  intros Htabs Hroot Hpages.
  destruct (xpath_page_last view) as [|p rest] eqn:Hsel.
  { exfalso. apply Hpages, xpath_page_last_nil_inv, Hsel. }
  assert (Hp : valid_anchor p view).
  { apply descendant_last_pages_valid.
    unfold xpath_page_last in Hsel. rewrite Hroot in Hsel. simpl in Hsel.
    rewrite Hsel. left. reflexivity. }
  pose (J := fun (_ : list Element) v q =>
               valid_anchor q v /\ xpath_field_id v = true).
  assert (Happ : forall news v q f,
            J news v q -> J news (append v (field_element f)) q).
  { intros news v q f [Hq Hv]. split; [apply append_valid, Hq|].
    rewrite xpath_field_id_append, Hv. reflexivity. }
  assert (Hnext : forall news v q new,
            J news v q ->
            exists v', addnext q new v = Some v'
                       /\ J (news ++ [new]) v' (next_sibling q)).
  { intros news v q new [Hq Hv].
    destruct (addnext_valid q v new Hq) as (v' & Hv' & Hq').
    exists v'. split; [exact Hv'|]. split; [exact Hq'|].
    exact (addnext_keeps_field_id q v new v' Hv' Hv). }
  unfold _add_tab_pages. rewrite Hsel.
  destruct (xpath_field_id view) eqn:Hid; simpl;
    unfold bind at 1, _get_tabs, lift; rewrite Htabs; unfold bind.
  - destruct (add_tab_pages_loop J Happ Hnext tabs [] view [] p s)
      as (view' & p' & s' & -> & _ & Hid'); [split; assumption|].
    exists view', s'. split; [reflexivity|exact Hid'].
  - destruct (add_tab_pages_loop J Happ Hnext tabs []
                (append view (field_element "id")) ["id"] p s)
      as (view' & p' & s' & -> & _ & Hid').
    { split; [apply append_valid, Hp|].
      rewrite xpath_field_id_append, orb_true_r. reflexivity. }
    exists view', s'. split; [reflexivity|exact Hid'].
Qed.

(** X8.  When the root of the view is itself a page, the node the method
    inserts after is the root, which has no parent: with at least one tab
    [_add_tab_pages] raises [TypeError], after [add_field] has attached the
    pair of the first tab. *)
Theorem compose_root_page_raises env view s tab tabs :
  is_page view = true ->
  get_tabs env = Ok (tab :: tabs) ->
  _add_tab_pages env view s = (Raise TypeError, snd (add_field tab s)).
Proof.
  intros Hroot Htabs. unfold _add_tab_pages, xpath_page_last.
  rewrite Hroot. simpl.
  destruct (xpath_field_id view); simpl;
    unfold bind at 1, _get_tabs, lift; rewrite Htabs; simpl;
    unfold bind, add_tab_page, bind;
    destruct (add_field_run tab s) as (s1 & -> & _); reflexivity.
Qed.

(** ** More on the composer: where the pages go *)

Lemma page_attribs_cons t a cs :
  page_attribs (Elem t a cs)
  = (if String.eqb t "page" then [a] else []) ++ flat_map page_attribs cs.
Proof.
  unfold page_attribs. simpl. rewrite map_app. f_equal.
  - destruct (String.eqb t "page"); reflexivity.
  - induction cs as [|c cs IH]; simpl; [reflexivity|].
    rewrite map_app, IH. reflexivity.
Qed.

Lemma length_flat_page_attribs l :
  length (flat_map page_attribs l) = length (flat_map doc_pages l).
Proof.
  induction l as [|c l IH]; simpl; [reflexivity|].
  rewrite !length_app, IH. unfold page_attribs. rewrite length_map.
  reflexivity.
Qed.

(** The pages of an element whose children are [l1 ++ l2]: the element
    itself with the pages of [l1], then the pages of [l2]. *)
Lemma page_attribs_split t a l1 l2 :
  page_attribs (Elem t a (l1 ++ l2))
  = ((if String.eqb t "page" then [a] else []) ++ flat_map page_attribs l1)
    ++ flat_map page_attribs l2.
Proof.
  rewrite page_attribs_cons, flat_map_app, app_assoc. reflexivity.
Qed.

Lemma length_page_attribs_head t (a : list (string * string)) l1 :
  length ((if String.eqb t "page" then [a] else [])
          ++ flat_map page_attribs l1)
  = ((if String.eqb t "page" then 1 else 0)
     + length (flat_map doc_pages l1))%nat.
Proof.
  rewrite length_app, length_flat_page_attribs.
  destruct (String.eqb t "page"); reflexivity.
Qed.

Lemma pages_upto_cons i p t a cs c :
  cs !! i = Some c ->
  pages_upto (i :: p) (Elem t a cs)
  = ((if String.eqb t "page" then 1 else 0)
     + length (flat_map doc_pages (take i cs)) + pages_upto p c)%nat.
Proof. intros Hi. simpl. rewrite Hi. reflexivity. Qed.

Lemma take_drop_splice {A} (H X T N : list A) k :
  (k <= length X)%nat ->
  take (length H + k) (H ++ X ++ T) ++ N ++ drop (length H + k) (H ++ X ++ T)
  = H ++ (take k X ++ N ++ drop k X) ++ T.
Proof.
  intros Hk. rewrite take_app_add, drop_app_add.
  rewrite take_app_le, drop_app_le by exact Hk.
  rewrite <- !app_assoc. reflexivity.
Qed.

Lemma pages_upto_bound p : forall e,
  is_Some (subtree p e) -> (pages_upto p e <= length (doc_pages e))%nat.
Proof.
  induction p as [|i p' IH]; intros [t a cs] Hsub; [simpl; lia|].
  simpl in Hsub. destruct (cs !! i) as [c|] eqn:Hi; [|destruct Hsub; done].
  specialize (IH c Hsub).
  assert (Hlen : length (flat_map doc_pages cs)
                 = (length (flat_map doc_pages (take i cs))
                    + length (doc_pages c)
                    + length (flat_map doc_pages (drop (S i) cs)))%nat).
  { rewrite <- (take_drop_middle cs i c Hi) at 1.
    rewrite flat_map_app. simpl. rewrite !length_app. lia. }
  rewrite (pages_upto_cons i p' t a cs c Hi), doc_pages_cons, length_app, Hlen.
  destruct (String.eqb t "page"); simpl; lia.
Qed.

(** Inserting after the node at [p] puts the pages of the new element right
    after the pages counted by [pages_upto]; the count for the next sibling
    is past them. *)
Lemma addnext_page_attribs p : forall e new,
  valid_anchor p e ->
  exists e',
    addnext p new e = Some e'
    /\ page_attribs e'
       = take (pages_upto p e) (page_attribs e)
         ++ page_attribs new ++ drop (pages_upto p e) (page_attribs e)
    /\ pages_upto (next_sibling p) e'
       = (pages_upto p e + length (doc_pages new))%nat.
Proof.
  induction p as [|i p' IH]; intros [t a cs] new [Hne Hsub]; [done|].
  simpl in Hsub. destruct (cs !! i) as [c|] eqn:Hi; [|destruct Hsub; done].
  pose proof (lookup_lt_Some _ _ _ Hi) as Hlt.
  set (H := (if String.eqb t "page" then [a] else [])
            ++ flat_map page_attribs (take i cs)).
  set (T := flat_map page_attribs (drop (S i) cs)).
  assert (HlenH : length H
                  = ((if String.eqb t "page" then 1 else 0)
                     + length (flat_map doc_pages (take i cs)))%nat)
    by apply length_page_attribs_head.
  assert (Hmid : forall c',
            page_attribs (Elem t a (take i cs ++ c' :: drop (S i) cs))
            = H ++ page_attribs c' ++ T).
  { intros c'. rewrite page_attribs_split. reflexivity. }
  assert (He : page_attribs (Elem t a cs) = H ++ page_attribs c ++ T).
  { rewrite <- (Hmid c), (take_drop_middle cs i c Hi). reflexivity. }
  assert (Hlenc : length (page_attribs c) = length (doc_pages c))
    by (unfold page_attribs; apply length_map).
  destruct p' as [|j q].
  - assert (Hupto : pages_upto [i] (Elem t a cs)
                    = (length H + length (page_attribs c))%nat).
    { rewrite (pages_upto_cons i [] t a cs c Hi), HlenH, Hlenc. reflexivity. }
    simpl addnext. rewrite bool_decide_eq_true_2 by exact Hlt.
    eexists. split; [reflexivity|]. split.
    + rewrite Hupto, He, take_drop_splice by lia.
      rewrite firstn_all, skipn_all, app_nil_r.
      rewrite (take_S_r cs i c Hi), <- (app_assoc (take i cs)).
      rewrite page_attribs_split. fold H.
      change (flat_map page_attribs ([c] ++ new :: drop (S i) cs))
        with (page_attribs c ++ page_attribs new ++ T).
      rewrite <- !app_assoc. reflexivity.
    + assert (Hlen : length (take (S i) cs) = S i)
        by (rewrite length_take_le; [reflexivity|lia]).
      change (next_sibling [i]) with [S i].
      rewrite (pages_upto_cons (S i) [] t a _ new)
        by (apply list_lookup_middle; symmetry; exact Hlen).
      rewrite take_app_length' by (symmetry; exact Hlen).
      rewrite (take_S_r cs i c Hi), flat_map_app, length_app.
      rewrite (pages_upto_cons i [] t a cs c Hi). simpl.
      rewrite app_nil_r. lia.
  - destruct (IH c new) as (c' & Hc' & Hpa & Hnext); [split; done|].
    pose proof (pages_upto_bound (j :: q) c Hsub) as Hbound.
    assert (Hupto : pages_upto (i :: j :: q) (Elem t a cs)
                    = (length H + pages_upto (j :: q) c)%nat).
    { rewrite (pages_upto_cons i (j :: q) t a cs c Hi), HlenH. reflexivity. }
    change (addnext (i :: j :: q) new (Elem t a cs))
      with (match cs !! i with
            | Some c0 => match addnext (j :: q) new c0 with
                         | Some c1 => Some (Elem t a (<[i := c1]> cs))
                         | None => None
                         end
            | None => None
            end).
    rewrite Hi, Hc'. eexists. split; [reflexivity|]. split.
    + rewrite Hupto, He, take_drop_splice by lia.
      rewrite <- Hpa, insert_take_drop by exact Hlt. apply Hmid.
    + rewrite next_sibling_cons.
      rewrite (pages_upto_cons i _ t a _ c')
        by (apply list_lookup_insert_eq; exact Hlt).
      rewrite take_insert_ge by lia.
      rewrite Hnext, Hupto, HlenH. lia.
Qed.

Lemma append_page_attribs p e f :
  valid_anchor p e ->
  doc_pages f = [] ->
  page_attribs (append e f) = page_attribs e
  /\ pages_upto p (append e f) = pages_upto p e.
Proof.
  intros [Hne Hsub] Hf. destruct p as [|i p']; [done|].
  destruct e as [t a cs]. simpl in Hsub.
  destruct (cs !! i) as [c|] eqn:Hi; [|destruct Hsub; done].
  pose proof (lookup_lt_Some _ _ _ Hi) as Hlt. split.
  - simpl append. rewrite page_attribs_split, page_attribs_cons. simpl.
    unfold page_attribs at 2. rewrite Hf. simpl. rewrite !app_nil_r.
    reflexivity.
  - simpl append.
    rewrite (pages_upto_cons i p' t a (cs ++ [f]) c)
      by (rewrite lookup_app_l by exact Hlt; exact Hi).
    rewrite (pages_upto_cons i p' t a cs c Hi), take_app_le by lia.
    reflexivity.
Qed.

(** The node [//page[last()]] selects is a page: at least one page is
    counted up to it. *)
Lemma children_last_pages_upto l :
  Forall (fun c => forall p, In p (descendant_last_pages c) ->
                             (1 <= pages_upto p c)%nat) l ->
  forall i p,
    In p (children_last_pages descendant_last_pages i l) ->
    exists k p' c,
      p = (i + k)%nat :: p' /\ l !! k = Some c /\ (1 <= pages_upto p' c)%nat.
Proof.
  induction 1 as [|c l Hc _ IH]; intros i p Hin; simpl in Hin; [destruct Hin|].
  rewrite !in_app_iff, in_map_iff in Hin. destruct Hin as [H|[H|H]].
  - destruct (is_page c && negb (existsb is_page l)) eqn:EA; simpl in H;
      [|destruct H].
    destruct H as [<-|[]]. exists 0%nat, [], c.
    rewrite Nat.add_0_r. repeat split.
    apply andb_prop in EA as [Hpage _]. destruct c as [t a cs].
    unfold is_page in Hpage. simpl in *. rewrite Hpage. simpl. lia.
  - destruct H as (q & <- & Hq). exists 0%nat, q, c.
    rewrite Nat.add_0_r. repeat split. apply Hc, Hq.
  - destruct (IH _ _ H) as (k & p' & c' & -> & Hk & Hv).
    exists (S k), p', c'. rewrite Nat.add_succ_r. repeat split; assumption.
Qed.

Lemma descendant_last_pages_upto e : forall p,
  In p (descendant_last_pages e) -> (1 <= pages_upto p e)%nat.
Proof.
  induction e as [t a cs IH] using Element_ind. intros p Hin. simpl in Hin.
  destruct (children_last_pages_upto cs IH _ _ Hin)
    as (k & p' & c & -> & Hk & Hv).
  change (0 + k)%nat with k.
  rewrite (pages_upto_cons k p' t a cs c Hk). lia.
Qed.

(** X7.  On any view with pages whose root is not a page, with the tab
    model answering, [_add_tab_pages] keeps the pages of the view in their
    order and puts the pages of the tabs among them as one block, in the
    order of the tabs and after at least one page of the view.  Pages are
    told apart by their attributes. *)
Theorem compose_inserts_one_block env view s tabs :
  get_tabs env = Ok tabs ->
  is_page view = false ->
  doc_pages view <> [] ->
  exists view' s' k,
    _add_tab_pages env view s
    = (Ok (composed_extra_fields view tabs, view'), s')
    /\ (1 <= k <= length (page_attribs view))%nat
    /\ page_attribs view'
       = take k (page_attribs view)
         ++ map attrib (flat_map doc_pages (map create_page tabs))
         ++ drop k (page_attribs view).
Proof.
  intros Htabs Hroot Hpages.
  destruct (xpath_page_last view) as [|p rest] eqn:Hsel.
  { exfalso. apply Hpages, xpath_page_last_nil_inv, Hsel. }
  assert (Hin : In p (descendant_last_pages view)).
  { unfold xpath_page_last in Hsel. rewrite Hroot in Hsel. simpl in Hsel.
    rewrite Hsel. left. reflexivity. }
  pose proof (descendant_last_pages_valid view p Hin) as Hp.
  pose proof (descendant_last_pages_upto view p Hin) as Hlow.
  pose proof (pages_upto_bound p view (proj2 Hp)) as Hhigh.
  assert (Hlenv : length (page_attribs view) = length (doc_pages view))
    by (unfold page_attribs; apply length_map).
  set (k0 := pages_upto p view) in *.
  pose (J := fun news v q =>
               valid_anchor q v
               /\ page_attribs v
                  = take k0 (page_attribs view)
                    ++ map attrib (flat_map doc_pages news)
                    ++ drop k0 (page_attribs view)
               /\ pages_upto q v
                  = (k0 + length (flat_map doc_pages news))%nat).
  destruct (_add_tab_pages_run J) with (env := env) (view := view) (s := s)
    (tabs := tabs) (p := p) (rest := rest)
    as (view' & p' & s' & Hrun & _ & Hpa & _); try assumption.
  - intros news v q f (Hq & Hv & Hk).
    destruct (append_page_attribs q v (field_element f) Hq eq_refl)
      as [Hv' Hk'].
    split; [apply append_valid, Hq|]. rewrite Hv', Hk'. auto.
  - intros news v q new (Hq & Hv & Hk).
    destruct (addnext_page_attribs q v new Hq) as (v' & Hv' & Hpa & Hk').
    destruct (addnext_valid q v new Hq) as (v'' & Hv'' & Hq').
    assert (v'' = v') as -> by congruence.
    exists v'. split; [exact Hv'|]. split; [exact Hq'|]. split.
    + rewrite Hpa, Hk, Hv.
      replace (k0 + length (flat_map doc_pages news))%nat
        with (length (take k0 (page_attribs view))
              + length (map attrib (flat_map doc_pages news)))%nat
        by (rewrite length_take_le, length_map by lia; reflexivity).
      rewrite take_drop_splice by lia.
      rewrite firstn_all, skipn_all, app_nil_r.
      rewrite flat_map_app, map_app. simpl. rewrite app_nil_r.
      reflexivity.
    + rewrite Hk', Hk, flat_map_app, length_app. simpl.
      rewrite app_nil_r. lia.
  - split; [exact Hp|]. simpl. split; [|lia].
    rewrite take_drop. reflexivity.
  - exists view', s', k0. split; [exact Hrun|]. split; [lia|exact Hpa].
Qed.

(** ** More on the layout fetch *)

(** X9.  For a view type other than [form], [fields_view_get] returns what
    the inherited method returns, in the state the inherited method left,
    whatever the context holds: nothing is composed, the tab model is not
    consulted. *)
Theorem fields_view_get_other_view_type env view_id_ view_type toolbar submenu s :
  view_type <> "form" ->
  fields_view_get env view_id_ view_type toolbar submenu s
  = super_fields_view_get view_id_ view_type toolbar submenu s.
Proof.
  intros Hne. unfold fields_view_get, bind.
  apply String.eqb_neq in Hne. rewrite Hne. simpl.
  destruct (super_fields_view_get view_id_ view_type toolbar submenu s)
    as [[result|e] s']; reflexivity.
Qed.

Lemma for_each_app {A B} (l1 l2 : list A) (body : B -> A -> M B) acc s :
  for_each (l1 ++ l2) body acc s
  = bind (for_each l1 body acc) (for_each l2 body) s.
Proof.
  revert acc s. induction l1 as [|x l1 IH]; intros acc s; simpl.
  - reflexivity.
  - unfold bind. destruct (body acc x s) as [[acc'|e] s1].
    + rewrite IH. reflexivity.
    + reflexivity.
Qed.

(** X10.  When the postprocessing returns no metadata for one of the extra
    fields, [fields_view_get] raises [KeyError] for the first such name, in
    the state the postprocessing left: the fields composition attached stay
    attached. *)
Theorem fields_view_get_missing_metadata
    env view_id_ toolbar submenu s result s0 view' s1 arch' original_fields s2
    present n rest :
  truthy (context_get env "check_view_ids") = false ->
  super_fields_view_get view_id_ "form" toolbar submenu s = (Ok result, s0) ->
  _add_tab_pages env (arch result) s0
  = (Ok (present ++ n :: rest, view'), s1) ->
  postprocess_and_fields _name view' (view_id result) s1
  = (Ok (arch', original_fields), s2) ->
  (forall m, In m present -> is_Some (original_fields !! m)) ->
  original_fields !! n = None ->
  fields_view_get env view_id_ "form" toolbar submenu s
  = (Raise (KeyError n), s2).
Proof.
  intros Hctx Hsuper Hrun Hpost Hpresent Hmissing.
  destruct (merge_fields_run original_fields present (fields result) s2
              Hpresent) as (fields' & Hmerge & _).
  unfold fields_view_get.
  rewrite (bind_ok _ _ _ _ _ Hsuper), Hctx. simpl.
  rewrite (bind_ok _ _ _ _ _ Hrun).
  rewrite (bind_ok _ _ _ _ _ Hpost).
  unfold bind at 1. rewrite for_each_app.
  rewrite (bind_ok _ _ _ _ _ Hmerge). simpl.
  unfold bind, merge_field. rewrite Hmissing. reflexivity.
Qed.

(** X11.  When the form has pages and the tab model raises,
    [fields_view_get] raises the same exception, in the state the inherited
    method left: nothing was attached. *)
Theorem fields_view_get_tab_model_failure
    env view_id_ toolbar submenu s result s0 e :
  truthy (context_get env "check_view_ids") = false ->
  super_fields_view_get view_id_ "form" toolbar submenu s = (Ok result, s0) ->
  doc_pages (arch result) <> [] ->
  get_tabs env = Raise e ->
  fields_view_get env view_id_ "form" toolbar submenu s = (Raise e, s0).
Proof.
  intros Hctx Hsuper Hpages Htabs.
  assert (Hraise : _add_tab_pages env (arch result) s0 = (Raise e, s0)).
  { unfold _add_tab_pages.
    destruct (xpath_page_last (arch result)) as [|p rest] eqn:Hsel.
    { exfalso. apply Hpages, xpath_page_last_nil_inv, Hsel. }
    destruct (xpath_field_id (arch result)); simpl;
      unfold bind, _get_tabs, lift; rewrite Htabs; reflexivity. }
  unfold fields_view_get.
  rewrite (bind_ok _ _ _ _ _ Hsuper), Hctx. simpl.
  rewrite (bind_raise _ _ _ _ _ Hraise). reflexivity.
Qed.

(** X12.  A form without pages is postprocessed as it is: the returned
    architecture is the postprocessed one, the field map is the inherited
    one, and the tab model is not consulted. *)
Theorem fields_view_get_form_without_pages
    env view_id_ toolbar submenu s result s0 arch' original_fields s2 :
  truthy (context_get env "check_view_ids") = false ->
  super_fields_view_get view_id_ "form" toolbar submenu s = (Ok result, s0) ->
  doc_pages (arch result) = [] ->
  postprocess_and_fields _name (arch result) (view_id result) s0
  = (Ok (arch', original_fields), s2) ->
  fields_view_get env view_id_ "form" toolbar submenu s
  = (Ok (mkViewResult arch' (fields result) (view_id result)), s2).
Proof.
  intros Hctx Hsuper Hpages Hpost. unfold fields_view_get.
  rewrite (bind_ok _ _ _ _ _ Hsuper), Hctx. simpl.
  rewrite (bind_ok _ _ _ _ _
             (add_tab_pages_no_pages_run env (arch result) s0 Hpages)).
  rewrite (bind_ok _ _ _ _ _ Hpost). reflexivity.
Qed.

(** ** Visibility *)

Lemma lookup_map {A B} (f : A -> B) (l : list A) i :
  map f l !! i = f <$> l !! i.
Proof.
  revert i. induction l as [|x l IH]; intros [|i]; simpl; auto.
Qed.

Lemma compute_tabs_visibility_loop tabs : forall self s,
  for_each tabs
    (fun self0 tab =>
       ret (map (fun this =>
                   setitem this (get_visible_fieldname tab)
                           (compute_visibility tab this))
                self0))
    self s
  = (Ok (map (fun this =>
                fold_left (fun r tab =>
                             setitem r (get_visible_fieldname tab)
                                     (compute_visibility tab r))
                          tabs this)
             self), s).
Proof.
  induction tabs as [|tab tabs IH]; intros self s; simpl.
  - unfold ret. rewrite map_id. reflexivity.
  - unfold bind, ret at 1. rewrite IH, map_map. reflexivity.
Qed.

Lemma compute_visibility_fold tabs : forall r,
  let r' := fold_left (fun r0 tab =>
                         setitem r0 (get_visible_fieldname tab)
                                 (compute_visibility tab r0))
                      tabs r in
  is_company r' = is_company r
  /\ category_id r' = category_id r
  /\ (forall n, ~ In n (map get_visible_fieldname tabs) ->
                values r' !! n = values r !! n)
  /\ (NoDup (map get_visible_fieldname tabs) ->
      (forall tab r1 r2,
          is_company r1 = is_company r2 -> category_id r1 = category_id r2 ->
          compute_visibility tab r1 = compute_visibility tab r2) ->
      forall tab, In tab tabs ->
        values r' !! get_visible_fieldname tab
        = Some (compute_visibility tab r)).
Proof.
  induction tabs as [|u tabs IH]; intros r; simpl.
  - repeat split; auto. intros _ _ tab [].
  - destruct (IH (setitem r (get_visible_fieldname u)
                          (compute_visibility u r)))
      as (Hc & Hg & Hframe & Hval).
    simpl in Hc, Hg. split; [exact Hc|]. split; [exact Hg|]. split.
    + intros n Hn. rewrite Hframe by (intros H; apply Hn; right; exact H).
      simpl. apply lookup_insert_ne. intros H. apply Hn. left. exact H.
    + intros Hnd Hdep tab Hin. apply NoDup_cons in Hnd as [Hu Hnd].
      destruct Hin as [<-|Hin].
      * rewrite Hframe by (intros H; apply Hu, list_elem_of_In, H).
        simpl. apply lookup_insert_eq.
      * rewrite (Hval Hnd Hdep tab Hin). f_equal. apply Hdep; reflexivity.
Qed.

(** X13.  With the tab model answering with tabs whose visible field names
    are pairwise distinct, and a visibility computation that reads of a
    record only [is_company] and [category_id], the dependencies declared,
    [_compute_tabs_visibility] returns the records in their order, each
    with, for every tab, the visibility the tab computes for it under the
    tab's visible field name; the other values and the two attributes are
    as they were, and the class state is not touched. *)
Theorem compute_tabs_visibility_assigns env self s tabs :
  get_tabs env = Ok tabs ->
  NoDup (map get_visible_fieldname tabs) ->
  (forall tab r1 r2,
      is_company r1 = is_company r2 -> category_id r1 = category_id r2 ->
      compute_visibility tab r1 = compute_visibility tab r2) ->
  exists self',
    _compute_tabs_visibility env self s = (Ok self', s)
    /\ length self' = length self
    /\ forall i this,
         self !! i = Some this ->
         exists this',
           self' !! i = Some this'
           /\ is_company this' = is_company this
           /\ category_id this' = category_id this
           /\ (forall tab, In tab tabs ->
                 values this' !! get_visible_fieldname tab
                 = Some (compute_visibility tab this))
           /\ (forall n, ~ In n (map get_visible_fieldname tabs) ->
                 values this' !! n = values this !! n).
Proof.
  intros Htabs Hnd Hdep. unfold _compute_tabs_visibility.
  unfold bind at 1, _get_tabs, lift. rewrite Htabs.
  rewrite compute_tabs_visibility_loop.
  eexists. split; [reflexivity|]. split; [apply length_map|].
  intros i this Hi. rewrite lookup_map, Hi. simpl.
  eexists. split; [reflexivity|].
  destruct (compute_visibility_fold tabs this) as (Hc & Hg & Hframe & Hval).
  repeat split; auto.
Qed.

End ResPartner.


(** ** The theorems at work on the sample installation *)

Local Abbreviation reconcile :=
  (_update_tab_fields Sample.get_fieldname Sample.get_visible_fieldname).
Local Abbreviation compose :=
  (_add_tab_pages Sample.get_fieldname Sample.get_visible_fieldname
                  Sample.create_page).
Local Abbreviation layout_fetch form :=
  (fields_view_get Sample.get_fieldname Sample.get_visible_fieldname
                   Sample.create_page string
                   (Sample.super_fields_view_get form)
                   Sample.postprocess_and_fields).
Local Abbreviation materialize :=
  (browse Sample.get_fieldname Sample.get_visible_fieldname
          (list Z) (list Z) Sample.super_browse).

(** After a first synchronization the pair of tab 1 is in the schema; a
    synchronization at the next revision, which attaches the pair of the new
    tab 4, leaves it alone. *)
Lemma reconcile_keeps_present_pair_witness :
  let tab := mkTab 1 "A" in
  let s := snd (reconcile Sample.env_live Sample.fresh) in
  let s' := snd (reconcile Sample.env_next_revision s) in
  (_fields s' !! Sample.get_fieldname tab
   = _fields s !! Sample.get_fieldname tab
   /\ _fields s' !! Sample.get_visible_fieldname tab
      = _fields s !! Sample.get_visible_fieldname tab)
  /\ is_Some (_fields s' !! Sample.get_fieldname (mkTab 4 "D")).
Proof.
  split.
  - apply (reconcile_keeps_present_pair
             Sample.get_fieldname Sample.get_visible_fieldname
             Sample.env_next_revision
             (snd (reconcile Sample.env_live Sample.fresh))
             (Sample.tabs ++ [mkTab 4 "D"]) (mkTab 1 "A")).
    + reflexivity.
    + apply (bool_decide_unpack _). vm_compute. exact I.
    + left. reflexivity.
    + vm_compute. eexists. reflexivity.
  - vm_compute. eexists. reflexivity.
Defined.

(** The process synchronized to revision 5; the source then holds a fourth
    tab under the same revision: nothing is attached. *)
Lemma reconcile_same_revision_noop_witness :
  let s := snd (reconcile Sample.env_live Sample.fresh) in
  reconcile Sample.env_more_tabs s = (Ok tt, s)
  /\ reconcile Sample.env_tabs_down s = (Ok tt, s).
Proof.
  split.
  - apply (proj1 (reconcile_same_revision_noop
                    Sample.get_fieldname Sample.get_visible_fieldname
                    Sample.env_more_tabs Sample.env_live
                    (snd (reconcile Sample.env_live Sample.fresh)) 5
                    eq_refl eq_refl)).
    vm_compute. reflexivity.
  - apply (proj2 (reconcile_same_revision_noop
                    Sample.get_fieldname Sample.get_visible_fieldname
                    Sample.env_live Sample.env_tabs_down
                    Sample.fresh 5 eq_refl eq_refl)).
Defined.

Lemma reconcile_failure_propagates_witness :
  reconcile Sample.env_sequence_down Sample.fresh
  = (Raise SourceUnavailable, Sample.fresh)
  /\ reconcile Sample.env_tabs_down Sample.fresh
     = (Raise SourceUnavailable, set_sequence 5 Sample.fresh).
Proof.
  split.
  - apply (proj1 (reconcile_failure_propagates
                    Sample.get_fieldname Sample.get_visible_fieldname
                    Sample.env_sequence_down Sample.fresh SourceUnavailable)).
    reflexivity.
  - apply (proj2 (reconcile_failure_propagates
                    Sample.get_fieldname Sample.get_visible_fieldname
                    Sample.env_tabs_down Sample.fresh SourceUnavailable) 5).
    + reflexivity.
    + discriminate.
    + reflexivity.
Defined.

(** C3 as the spec states it fails: the tab model is down while the counter
    reads 5; the exception reaches the caller, and the cache, 0 before the
    call, holds 5 after it, so the next call takes the process for
    synchronized although no field was attached. *)
Lemma reconcile_commits_cache_before_fetch :
  let result := reconcile Sample.env_tabs_down Sample.fresh in
  fst result = Raise SourceUnavailable
  /\ _tab_modification_sequence Sample.fresh = 0
  /\ _tab_modification_sequence (snd result) = 5
  /\ _fields (snd result) = _fields Sample.fresh
  /\ reconcile Sample.env_live (snd result) = (Ok tt, snd result).
Proof. vm_compute. repeat split. Qed.

Lemma reconcile_sentinel_zero_witness :
  reconcile Sample.env_zero Sample.fresh = (Ok tt, Sample.fresh)
  /\ _fields Sample.fresh
       !! Sample.get_fieldname (mkTab 1 "A") = None.
Proof.
  split; [|reflexivity].
  apply (reconcile_sentinel_zero
           Sample.get_fieldname Sample.get_visible_fieldname
           Sample.env_zero ∅ ∅ 0%nat Sample.fresh eq_refl eq_refl).
Defined.

Lemma browse_reconciles_first_witness :
  materialize Sample.env_live (Some [1; 2]) None Sample.fresh
  = Sample.super_browse (Some [1; 2]) None
      (snd (reconcile Sample.env_live Sample.fresh))
  /\ materialize Sample.env_sequence_down (Some [1; 2]) None Sample.fresh
     = (Raise SourceUnavailable, Sample.fresh).
Proof.
  split.
  - apply (proj2 (browse_reconciles_first
                    Sample.get_fieldname Sample.get_visible_fieldname
                    (list Z) (list Z) Sample.super_browse
                    Sample.env_live (Some [1; 2]) None Sample.fresh)).
    vm_compute. reflexivity.
  - apply (proj1 (browse_reconciles_first
                    Sample.get_fieldname Sample.get_visible_fieldname
                    (list Z) (list Z) Sample.super_browse
                    Sample.env_sequence_down (Some [1; 2]) None Sample.fresh)
             SourceUnavailable).
    reflexivity.
Defined.

Lemma add_field_pair_witness :
  let tab := mkTab 7 "Board" in
  let s' := snd (add_field Sample.get_fieldname Sample.get_visible_fieldname
                           tab Sample.fresh) in
  exists visible_field tab_field,
    _fields s' !! "relation_ids_tab_7_visible" = Some visible_field
    /\ depends_of (fdesc visible_field) = ["is_company"; "category_id"]
    /\ _fields s' !! "relation_ids_tab_7" = Some tab_field
    /\ fdesc tab_field
       = One2many "res.partner.relation.all" "this_partner_id"
                  [("tab_id", "=", 7)] [("active_test", false)] "Board".
Proof.
  destruct (add_field_pair Sample.get_fieldname Sample.get_visible_fieldname
              (mkTab 7 "Board") Sample.fresh)
    as (visible_field & tab_field & _ & Hv & _ & _ & _ & Hd & Ht & Hf).
  - vm_compute. discriminate.
  - exists visible_field, tab_field. repeat split; assumption.
Defined.

Lemma add_tab_pages_no_pages_witness :
  compose Sample.env_tabs_down Sample.plain_form Sample.fresh
  = (Ok ([], Sample.plain_form), Sample.fresh).
Proof.
  apply (add_tab_pages_no_pages
           Sample.get_fieldname Sample.get_visible_fieldname
           Sample.create_page Sample.env_tabs_down Sample.plain_form
           Sample.fresh).
  reflexivity.
Defined.

Lemma fields_view_get_validation_mode_witness :
  layout_fetch Sample.partner_form Sample.env_validation None "form"
               false false Sample.fresh
  = (Ok (mkViewResult Sample.partner_form {["name" := "res.partner"]} 7),
     Sample.fresh).
Proof.
  rewrite (fields_view_get_validation_mode
             Sample.get_fieldname Sample.get_visible_fieldname
             Sample.create_page string
             (Sample.super_fields_view_get Sample.partner_form)
             Sample.postprocess_and_fields Sample.env_validation
             None "form" false false Sample.fresh).
  - reflexivity.
  - vm_compute. reflexivity.
Defined.



(** C1 as the spec states it fails for composition: the pair of tab 1 is in
    the schema, the tab is then renamed, and composing a form replaces the
    relation field by one with the new label; with the tab unchanged, the
    field object is replaced by a new one all the same. *)
Lemma compose_replaces_present_pair :
  let name := Sample.get_fieldname (mkTab 1 "Old") in
  let s1 := snd (reconcile (Sample.env_renamed "Old") Sample.fresh) in
  let s2 := snd (compose (Sample.env_renamed "New") Sample.partner_form s1) in
  let s3 := snd (compose (Sample.env_renamed "Old") Sample.partner_form s1) in
  Sample.get_fieldname (mkTab 1 "New") = name
  /\ fdesc <$> _fields s1 !! name = Some (tab_field_desc (mkTab 1 "Old"))
  /\ fdesc <$> _fields s2 !! name = Some (tab_field_desc (mkTab 1 "New"))
  /\ _fields s2 !! name <> _fields s1 !! name
  /\ _fields s3 !! name <> _fields s1 !! name.
Proof.
  vm_compute. repeat split; intros H; discriminate H.
Qed.

(** The partner form for three tabs: the metadata of the [id] marker and
    of both fields of every tab is merged, the entry of [name] stays, and
    the cache still holds 0 although the source is at revision 5. *)
Lemma fields_view_get_form_witness :
  exists arch' fields' s2,
    layout_fetch Sample.partner_form Sample.env_live None "form" false false
                 Sample.fresh
    = (Ok (mkViewResult arch' fields' 7), s2)
    /\ _tab_modification_sequence s2 = 0
    /\ fields' !! "id" = Some "res.partner"
    /\ fields' !! "relation_ids_tab_2_visible" = Some "res.partner"
    /\ fields' !! "relation_ids_tab_2" = Some "res.partner"
    /\ fields' !! "name" = Some "res.partner".
Proof.
  destruct (fields_view_get_form
              Sample.get_fieldname Sample.get_visible_fieldname
              Sample.create_page string
              (Sample.super_fields_view_get Sample.partner_form)
              Sample.postprocess_and_fields Sample.env_live None false false
              Sample.fresh
              (mkViewResult Sample.partner_form {["name" := "res.partner"]} 7)
              Sample.fresh Sample.tabs eq_refl eq_refl eq_refl eq_refl)
    as (view' & s1 & Hrun & Hseq & Hpost).
  assert (Hview : fst (compose Sample.env_live Sample.partner_form
                               Sample.fresh)
                  = Ok (composed_extra_fields
                          Sample.get_fieldname Sample.get_visible_fieldname
                          Sample.partner_form Sample.tabs, view'))
    by (simpl in Hrun; rewrite Hrun; reflexivity).
  vm_compute in Hview. injection Hview as Hview. subst view'.
  destruct (Hpost _ _ s1 eq_refl) as (fields' & Hget & Hin & Hout).
  - intros n Hn. vm_compute in Hn.
    repeat (destruct Hn as [<-|Hn]; [vm_compute; eexists; reflexivity|]).
    destruct Hn.
  - eexists _, fields', s1. split; [exact Hget|]. split; [exact Hseq|].
    split; [|split; [|split]].
    + rewrite Hin by (vm_compute; auto). vm_compute. reflexivity.
    + rewrite Hin by (vm_compute; auto 10). vm_compute. reflexivity.
    + rewrite Hin by (vm_compute; auto 10). vm_compute. reflexivity.
    + rewrite Hout; [vm_compute; reflexivity|].
      intros Hn. vm_compute in Hn.
      repeat (destruct Hn as [Hn|Hn]; [discriminate Hn|]). exact Hn.
Defined.

(** C4 as the spec states it fails: fetching the form with the source at
    revision 5 leaves the cache at 0, where [_update_tab_fields] would have
    set it to 5; and for another view type nothing is composed although the
    call is not in validation mode. *)
Lemma fields_view_get_does_not_reconcile :
  let result :=
    layout_fetch Sample.partner_form Sample.env_live None "form" false false
                 Sample.fresh in
  truthy (context_get Sample.env_live "check_view_ids") = false
  /\ (exists r, fst result = Ok r)
  /\ _tab_modification_sequence (snd result) = 0
  /\ _tab_modification_sequence
       (snd (reconcile Sample.env_live Sample.fresh)) = 5
  /\ layout_fetch Sample.partner_form Sample.env_live None "tree" false false
                  Sample.fresh
     = (Ok (mkViewResult Sample.partner_form {["name" := "res.partner"]} 7),
        Sample.fresh).
Proof.
  vm_compute. repeat split. eexists. reflexivity.
Qed.

(** ** The further theorems at work on the sample installation *)

Lemma reconcile_attaches_all_tabs_witness :
  exists s',
    reconcile Sample.env_live Sample.fresh = (Ok tt, s')
    /\ _tab_modification_sequence s' = 5
    /\ forall tab, In tab Sample.tabs ->
                   is_Some (_fields s' !! Sample.get_fieldname tab).
Proof.
  apply (reconcile_attaches_all_tabs
           Sample.get_fieldname Sample.get_visible_fieldname
           Sample.env_live Sample.fresh 5 Sample.tabs).
  - reflexivity.
  - discriminate.
  - reflexivity.
Defined.

(** At revision 6 with a fourth tab, the names of tab 4 are added and the
    name [name] is not. *)
Lemma reconcile_adds_exactly_missing_witness :
  let s := snd (reconcile Sample.env_live Sample.fresh) in
  let s' := snd (reconcile Sample.env_next_revision s) in
  is_Some (_fields s' !! "relation_ids_tab_4_visible")
  /\ _fields s' !! "name" = None.
Proof.
  pose proof (reconcile_adds_exactly_missing
                Sample.get_fieldname Sample.get_visible_fieldname
                Sample.env_next_revision
                (snd (reconcile Sample.env_live Sample.fresh)) 6
                (Sample.tabs ++ [mkTab 4 "D"])) as Hexact.
  assert (Hseq : 6 <> _tab_modification_sequence
                        (snd (reconcile Sample.env_live Sample.fresh)))
    by (vm_compute; discriminate).
  assert (Hnd : NoDup (flat_map (tab_fieldnames Sample.get_fieldname
                                   Sample.get_visible_fieldname)
                         (Sample.tabs ++ [mkTab 4 "D"])))
    by (apply (bool_decide_unpack _); vm_compute; exact I).
  specialize (Hexact eq_refl Hseq eq_refl Hnd). split.
  - apply Hexact. right. exists (mkTab 4 "D"). split; [|split].
    + simpl. auto 10.
    + vm_compute. reflexivity.
    + vm_compute. auto.
  - destruct (_fields _ !! "name") as [f|] eqn:Hname; [|reflexivity].
    exfalso.
    assert (Hsome : is_Some
              (_fields (snd (reconcile Sample.env_next_revision
                               (snd (reconcile Sample.env_live Sample.fresh))))
                 !! "name")) by (rewrite Hname; eauto).
    apply Hexact in Hsome. destruct Hsome as [[x Hx]|(tab & Hin & _ & Hn)].
    + vm_compute in Hx. discriminate.
    + simpl in Hin.
      repeat (destruct Hin as [<-|Hin];
              [vm_compute in Hn; destruct Hn as [Hn|[Hn|[]]]; discriminate|]).
      destruct Hin.
Defined.

(** The process is at revision 5 with the pairs of the three tabs; at
    revision 6 with the same tabs only the cache moves. *)
Lemma reconcile_all_present_moves_cache_only_witness :
  let s := snd (reconcile Sample.env_live Sample.fresh) in
  reconcile (mkEnv ∅ (Ok 6) (Ok Sample.tabs)) s = (Ok tt, set_sequence 6 s).
Proof.
  apply (reconcile_all_present_moves_cache_only
           Sample.get_fieldname Sample.get_visible_fieldname
           (mkEnv ∅ (Ok 6) (Ok Sample.tabs))
           (snd (reconcile Sample.env_live Sample.fresh)) 6 Sample.tabs).
  - reflexivity.
  - reflexivity.
  - intros tab Hin. simpl in Hin.
    repeat (destruct Hin as [<-|Hin]; [vm_compute; eexists; reflexivity|]).
    destruct Hin.
Defined.

Lemma compose_attaches_every_pair_witness :
  exists view' s',
    compose (Sample.env_renamed "New") Sample.partner_form
            (snd (reconcile (Sample.env_renamed "Old") Sample.fresh))
    = (Ok (["id"; "relation_ids_tab_1_visible"; "relation_ids_tab_1"], view'),
       s')
    /\ fdesc <$> _fields s' !! "relation_ids_tab_1"
       = Some (One2many "res.partner.relation.all" "this_partner_id"
                        [("tab_id", "=", 1)] [("active_test", false)] "New").
Proof.
  destruct (compose_attaches_every_pair
              Sample.get_fieldname Sample.get_visible_fieldname
              Sample.create_page (Sample.env_renamed "New")
              Sample.partner_form
              (snd (reconcile (Sample.env_renamed "Old") Sample.fresh))
              [mkTab 1 "New"])
    as (view' & s' & Hrun & Hpairs).
  - reflexivity.
  - reflexivity.
  - discriminate.
  - apply (bool_decide_unpack _). vm_compute. exact I.
  - exists view', s'. split; [exact Hrun|].
    exact (proj1 (Hpairs (mkTab 1 "New") (or_introl eq_refl))).
Defined.

(** Composing the partner form twice for three tabs leaves six entries in
    [_field_computed]. *)
Lemma compose_registers_computed_fields_witness :
  exists view' s',
    compose Sample.env_live Sample.partner_form
            (snd (compose Sample.env_live Sample.partner_form Sample.fresh))
    = (Ok (composed_extra_fields
             Sample.get_fieldname Sample.get_visible_fieldname
             Sample.partner_form Sample.tabs, view'), s')
    /\ size (_field_computed s') = 6%nat.
Proof.
  destruct (compose_registers_computed_fields
              Sample.get_fieldname Sample.get_visible_fieldname
              Sample.create_page Sample.env_live Sample.partner_form
              (snd (compose Sample.env_live Sample.partner_form Sample.fresh))
              Sample.tabs)
    as (view' & s' & Hrun & Hsize).
  - intros k [x Hx].
    assert (Hkeys : map_Forall (fun k0 (_ : list nat) => (k0 < 6)%nat)
              (_field_computed
                 (snd (compose Sample.env_live Sample.partner_form
                               Sample.fresh))))
      by (apply (bool_decide_unpack _); vm_compute; exact I).
    exact (Hkeys k x Hx).
  - reflexivity.
  - reflexivity.
  - discriminate.
  - exists view', s'. split; [exact Hrun|]. rewrite Hsize. reflexivity.
Defined.

Lemma compose_ensures_id_field_witness :
  xpath_field_id Sample.partner_form = false
  /\ exists view' s',
       compose Sample.env_live Sample.partner_form Sample.fresh
       = (Ok ("id" :: flat_map (tab_fieldnames Sample.get_fieldname
                                  Sample.get_visible_fieldname) Sample.tabs,
              view'), s')
       /\ xpath_field_id view' = true.
Proof.
  split; [reflexivity|].
  apply (compose_ensures_id_field
           Sample.get_fieldname Sample.get_visible_fieldname
           Sample.create_page Sample.env_live Sample.partner_form
           Sample.fresh Sample.tabs).
  - reflexivity.
  - reflexivity.
  - discriminate.
Defined.

Lemma compose_root_page_raises_witness :
  compose Sample.env_live Sample.page_root_view Sample.fresh
  = (Raise TypeError,
     snd (add_field Sample.get_fieldname Sample.get_visible_fieldname
                    (mkTab 1 "A") Sample.fresh)).
Proof.
  apply (compose_root_page_raises
           Sample.get_fieldname Sample.get_visible_fieldname
           Sample.create_page Sample.env_live Sample.page_root_view
           Sample.fresh (mkTab 1 "A") [mkTab 2 "B"; mkTab 3 "C"]).
  - reflexivity.
  - reflexivity.
Defined.

(** A page inside a page: the tabs go after the inner page, inside the
    outer one, and before the last page of the form. *)
Lemma compose_inserts_one_block_witness :
  exists view' s' k,
    compose Sample.env_live Sample.nested_form Sample.fresh
    = (Ok (composed_extra_fields
             Sample.get_fieldname Sample.get_visible_fieldname
             Sample.nested_form Sample.tabs, view'), s')
    /\ (1 <= k <= length (page_attribs Sample.nested_form))%nat
    /\ page_attribs view'
       = take k (page_attribs Sample.nested_form)
         ++ map attrib (flat_map doc_pages (map Sample.create_page Sample.tabs))
         ++ drop k (page_attribs Sample.nested_form).
Proof.
  apply (compose_inserts_one_block
           Sample.get_fieldname Sample.get_visible_fieldname
           Sample.create_page Sample.env_live Sample.nested_form
           Sample.fresh Sample.tabs).
  - reflexivity.
  - reflexivity.
  - discriminate.
Defined.

Lemma fields_view_get_other_view_type_witness :
  layout_fetch Sample.partner_form Sample.env_live None "tree" false false
               Sample.fresh
  = Sample.super_fields_view_get Sample.partner_form None "tree" false false
                                 Sample.fresh.
Proof.
  apply (fields_view_get_other_view_type
           Sample.get_fieldname Sample.get_visible_fieldname
           Sample.create_page string
           (Sample.super_fields_view_get Sample.partner_form)
           Sample.postprocess_and_fields Sample.env_live None "tree"
           false false Sample.fresh).
  discriminate.
Defined.

Lemma fields_view_get_tab_model_failure_witness :
  layout_fetch Sample.partner_form Sample.env_tabs_down None "form"
               false false Sample.fresh
  = (Raise SourceUnavailable, Sample.fresh).
Proof.
  apply (fields_view_get_tab_model_failure
           Sample.get_fieldname Sample.get_visible_fieldname
           Sample.create_page string
           (Sample.super_fields_view_get Sample.partner_form)
           Sample.postprocess_and_fields Sample.env_tabs_down None
           false false Sample.fresh
           (mkViewResult Sample.partner_form {["name" := "res.partner"]} 7)
           Sample.fresh SourceUnavailable).
  - reflexivity.
  - reflexivity.
  - discriminate.
  - reflexivity.
Defined.

Lemma fields_view_get_form_without_pages_witness :
  layout_fetch Sample.plain_form Sample.env_tabs_down None "form"
               false false Sample.fresh
  = (Ok (mkViewResult Sample.plain_form {["name" := "res.partner"]} 7),
     Sample.fresh).
Proof.
  exact (fields_view_get_form_without_pages
           Sample.get_fieldname Sample.get_visible_fieldname
           Sample.create_page string
           (Sample.super_fields_view_get Sample.plain_form)
           Sample.postprocess_and_fields Sample.env_tabs_down None
           false false Sample.fresh
           (mkViewResult Sample.plain_form {["name" := "res.partner"]} 7)
           Sample.fresh Sample.plain_form
           (list_to_map [("name", "res.partner")]) Sample.fresh
           eq_refl eq_refl eq_refl eq_refl).
Defined.

(** The postprocessing describes no field: the first extra field, [id],
    is the key that is missing. *)
Lemma fields_view_get_missing_metadata_witness :
  fst (fields_view_get Sample.get_fieldname Sample.get_visible_fieldname
         Sample.create_page string
         (Sample.super_fields_view_get Sample.partner_form)
         Sample.postprocess_without_metadata Sample.env_live None "form"
         false false Sample.fresh)
  = Raise (KeyError "id")
  /\ is_Some (_fields
                (snd (fields_view_get
                        Sample.get_fieldname Sample.get_visible_fieldname
                        Sample.create_page string
                        (Sample.super_fields_view_get Sample.partner_form)
                        Sample.postprocess_without_metadata Sample.env_live
                        None "form" false false Sample.fresh))
                !! "relation_ids_tab_1").
Proof.
  pose (run := compose Sample.env_live Sample.partner_form Sample.fresh).
  pose (view' := match fst run with
                 | Ok (_, v) => v
                 | Raise _ => Sample.partner_form
                 end).
  rewrite (fields_view_get_missing_metadata
             Sample.get_fieldname Sample.get_visible_fieldname
             Sample.create_page string
             (Sample.super_fields_view_get Sample.partner_form)
             Sample.postprocess_without_metadata Sample.env_live None
             false false Sample.fresh
             (mkViewResult Sample.partner_form {["name" := "res.partner"]} 7)
             Sample.fresh view' (snd run) view' ∅ (snd run) [] "id"
             (flat_map (tab_fieldnames Sample.get_fieldname
                          Sample.get_visible_fieldname) Sample.tabs)).
  - split; [reflexivity|]. vm_compute. eexists. reflexivity.
  - reflexivity.
  - reflexivity.
  - vm_compute. reflexivity.
  - reflexivity.
  - intros m [].
  - reflexivity.
Defined.

(** Two partners, three tabs: tab 1 shows for the company only, tab 2 for
    the partner of category 9 only, tab 3 for both; the value [color] of the
    second partner stays. *)
Lemma compute_tabs_visibility_assigns_witness :
  exists self',
    _compute_tabs_visibility Sample.get_visible_fieldname
      Sample.compute_visibility Sample.env_live Sample.partners Sample.fresh
    = (Ok self', Sample.fresh)
    /\ (values <$> self' !! 0%nat) ≫= (.!! "relation_ids_tab_1_visible")
       = Some true
    /\ (values <$> self' !! 1%nat) ≫= (.!! "relation_ids_tab_1_visible")
       = Some false
    /\ (values <$> self' !! 1%nat) ≫= (.!! "relation_ids_tab_2_visible")
       = Some true
    /\ (values <$> self' !! 1%nat) ≫= (.!! "color") = Some true.
Proof.
  destruct (compute_tabs_visibility_assigns
              Sample.get_visible_fieldname Sample.compute_visibility
              Sample.env_live Sample.partners Sample.fresh Sample.tabs)
    as (self' & Hrun & _ & Hrec).
  - reflexivity.
  - apply (bool_decide_unpack _). vm_compute. exact I.
  - intros tab r1 r2 H1 H2. unfold Sample.compute_visibility.
    rewrite H1, H2. reflexivity.
  - exists self'. split; [exact Hrun|].
    destruct (Hrec 0%nat _ eq_refl) as (p0 & Hp0 & _ & _ & Hv0 & _).
    destruct (Hrec 1%nat _ eq_refl) as (p1 & Hp1 & _ & _ & Hv1 & Hf1).
    rewrite Hp0, Hp1. simpl.
    split; [exact (Hv0 (mkTab 1 "A") (or_introl eq_refl))|].
    split; [exact (Hv1 (mkTab 1 "A") (or_introl eq_refl))|].
    split; [exact (Hv1 (mkTab 2 "B") (or_intror (or_introl eq_refl)))|].
    rewrite Hf1; [reflexivity|].
    intros Hin. vm_compute in Hin.
    repeat (destruct Hin as [Hin|Hin]; [discriminate Hin|]). exact Hin.
Defined.
